(** * Sale ledger of the store back office: sale creation, sale-level debt
      payment, cancellation, client-level debt payment and the client debt
      history.

    The development embeds [app/services/sale_service.py] (class
    [SaleService]) and the two handlers [process_debt_payment] and
    [get_client_debt_history] of [app/api/sales.py], together with the
    columns of the SQLAlchemy models they touch, and states the properties
    of the ledger over that embedding. *)

From Stdlib Require Import ZArith List String Lia Permutation Sorted.
From stdpp Require Import gmap strings list sorting.

Local Open Scope string_scope.
Local Open Scope list_scope.
Local Open Scope Z_scope.

(** ** Values *)

(** [decimal.Decimal] amounts.  The monetary columns are [Numeric(10, 2)];
    an amount is represented by the integer number of hundredths it holds.
    Addition, subtraction, negation, multiplication by an [int] and the
    comparisons of [Decimal] are exact, and are the ones of [Z]. *)
Abbreviation Decimal := Z.

(** A Python f-string, kept as its literal pieces and interpolated values
    (the rendering of a [Decimal] or an [int] by [str] is not needed). *)
Inductive fpart : Type :=
  | Lit (s : string)
  | FInt (n : Z)
  | FDec (d : Decimal)
  | FStr (s : string).

Definition fstring := list fpart.

(** [app/models/sale.py] *)
Inductive PaymentMethod := CASH | CARD | TRANSFER.

Inductive SaleStatus := COMPLETED | PARTIALLY_PAID | DEBT | CANCELLED | PENDING.

(** [app/models/transaction.py] *)
Inductive TransactionType := SALE | PURCHASE | EXPENSE | REFUND | DEBT_PAYMENT.

#[global] Instance SaleStatus_eq_dec : EqDecision SaleStatus.
Proof. solve_decision. Defined.

#[global] Instance TransactionType_eq_dec : EqDecision TransactionType.
Proof. solve_decision. Defined.

(** The [.value] of the [str]-valued enumeration. *)
Definition TransactionType_value (t : TransactionType) : string :=
  match t with
  | SALE => "sale"
  | PURCHASE => "purchase"
  | EXPENSE => "expense"
  | REFUND => "refund"
  | DEBT_PAYMENT => "debt_payment"
  end.

(** ** Rows

    One record per model class, with the columns that the embedded
    functions read or write.  Nullable columns are options.  The tables
    [clients], [product_variants] and [sales] are looked up by primary key
    only, so they are maps from the [id] column to the rest of the row; a
    reference to one of their rows is its key. *)

Module User.
Record t := { id : Z }.
End User.

Module Client.
Record t := { debt_amount : Decimal }.

Definition with_debt_amount (c : t) (d : Decimal) : t :=
  {| debt_amount := d |}.
End Client.

Module ProductVariant.
Record t := { sku : string; price : Decimal; stock_quantity : Z }.

Definition with_stock_quantity (v : t) (q : Z) : t :=
  {| sku := sku v; price := price v; stock_quantity := q |}.
End ProductVariant.

Module Sale.
Record t := {
  receipt_number : string;
  client_id : option Z;
  total_amount : Decimal;
  paid_amount : Decimal;
  payment_method : PaymentMethod;
  status : SaleStatus;
  notes : option string;
  user_id : Z
}.

Definition with_paid_amount (s : t) (p : Decimal) : t :=
  {| receipt_number := receipt_number s; client_id := client_id s;
     total_amount := total_amount s; paid_amount := p;
     payment_method := payment_method s; status := status s;
     notes := notes s; user_id := user_id s |}.

Definition with_status (s : t) (st : SaleStatus) : t :=
  {| receipt_number := receipt_number s; client_id := client_id s;
     total_amount := total_amount s; paid_amount := paid_amount s;
     payment_method := payment_method s; status := st;
     notes := notes s; user_id := user_id s |}.
End Sale.

Module SaleItem.
Record t := {
  id : Z;
  sale_id : Z;
  product_variant_id : Z;
  quantity : Z;
  unit_price : Decimal;
  total_price : Decimal
}.
End SaleItem.

Module Transaction.
Record t := {
  id : Z;
  user_id : Z;
  amount : Decimal;
  description : option fstring;
  transaction_type : TransactionType;
  sale_id : option Z;
  client_id : option Z;
  created_at : Z
}.

(** The names [hasattr(Transaction, k)] accepts: the mapped columns and
    the two relationships of the class. *)
Definition attrs : list string :=
  ["id"; "user_id"; "amount"; "description"; "transaction_type";
   "sale_id"; "client_id"; "created_at"; "sale"; "client"].
End Transaction.

(** [app/schemas/sale.py]: the request bodies.  [SaleBase.total_amount] is
    part of the body but [create_sale] never reads it. *)
Module SaleItemCreate.
Record t := { product_variant_id : Z; quantity : Z; unit_price : Decimal }.
End SaleItemCreate.

Module SaleCreate.
Record t := {
  client_id : option Z;
  paid_amount : Decimal;
  payment_method : PaymentMethod;
  notes : option string;
  items : list SaleItemCreate.t
}.
End SaleCreate.

Module DebtPaymentRequest.
Record t := { client_id : Z; payment_amount : Decimal }.
End DebtPaymentRequest.

(** ** The relational store *)

Record DB := {
  clients : gmap Z Client.t;
  product_variants : gmap Z ProductVariant.t;
  sales : gmap Z Sale.t;
  sale_items : list SaleItem.t;
  transactions : list Transaction.t
}.

Definition with_clients (d : DB) (c : gmap Z Client.t) : DB :=
  {| clients := c; product_variants := product_variants d; sales := sales d;
     sale_items := sale_items d; transactions := transactions d |}.

Definition with_product_variants (d : DB) (v : gmap Z ProductVariant.t) : DB :=
  {| clients := clients d; product_variants := v; sales := sales d;
     sale_items := sale_items d; transactions := transactions d |}.

Definition with_sales (d : DB) (s : gmap Z Sale.t) : DB :=
  {| clients := clients d; product_variants := product_variants d; sales := s;
     sale_items := sale_items d; transactions := transactions d |}.

Definition with_sale_items (d : DB) (l : list SaleItem.t) : DB :=
  {| clients := clients d; product_variants := product_variants d;
     sales := sales d; sale_items := l; transactions := transactions d |}.

Definition with_transactions (d : DB) (l : list Transaction.t) : DB :=
  {| clients := clients d; product_variants := product_variants d;
     sales := sales d; sale_items := sale_items d; transactions := l |}.

(** Serial primary keys: one more than the largest key in use. *)
Definition next_key (keys : list Z) : Z := 1 + fold_right Z.max 0 keys.

(** ** The unit of work *)

(** Modelled from the spec: [app.database], which defines the session
    factory behind [get_db], is not among the sources.  As the spec has
    it, a request is one unit of work against the relational store and
    what it has not committed is rolled back.  A request works on one
    SQLAlchemy [Session].  Rows loaded by a query are shared objects of
    the session's identity map: a local variable bound to a row is a
    reference to it, and an attribute assignment is seen by every later
    read in the session.  [working] is the store as the session sees it,
    [committed] the store as everybody else sees it; [commit] publishes
    [working].  What is not committed when the request ends is dropped
    with the session. *)
Record Session := { committed : DB; working : DB }.

Inductive Exc : Type :=
  | HTTPException (status_code : Z) (detail : fstring)
  | UnboundLocalError (name : string)
  | TypeError (keyword : string) (cls : string)
  | IntegrityError (constraint : string).

Definition M (A : Type) : Type := Session -> (Exc + A) * Session.

Definition ret {A} (a : A) : M A := fun s => (inr a, s).

Definition raise {A} (e : Exc) : M A := fun s => (inl e, s).

Definition bind {A B} (m : M A) (f : A -> M B) : M B :=
  fun s => match m s with
           | (inl e, s') => (inl e, s')
           | (inr a, s') => f a s'
           end.

Notation "'let*' x := m 'in' k" := (bind m (fun x => k))
  (at level 10, x pattern, m at level 100, k at level 200).
Notation "m ;;; k" := (bind m (fun _ => k))
  (at level 100, k at level 200, right associativity).

Definition get_working : M DB := fun s => (inr (working s), s).

Definition put_working (d : DB) : M unit :=
  fun s => (inr tt, {| committed := committed s; working := d |}).

(** [db.commit()] *)
Definition commit : M unit :=
  fun s => (inr tt, {| committed := working s; working := working s |}).

(** A [for] loop threading the variables it assigns. *)
Fixpoint for_each {A B} (xs : list A) (body : B -> A -> M B) (b : B) : M B :=
  match xs with
  | [] => ret b
  | x :: xs' => let* b' := body b x in for_each xs' body b'
  end.

(** Serving a request on the store [d]: the outcome and the store that is
    observable once the session is gone. *)
Definition serve {A} (m : M A) (d : DB) : (Exc + A) * DB :=
  let '(r, s) := m {| committed := d; working := d |} in (r, committed s).

(** ** Session primitives *)

(** [db.query(Client).filter(Client.id == i).first()] *)
Definition query_client (i : Z) : M (option Client.t) :=
  fun s => (inr (clients (working s) !! i), s).

(** [db.query(ProductVariant).filter(ProductVariant.id == i).first()] *)
Definition query_product_variant (i : Z) : M (option ProductVariant.t) :=
  fun s => (inr (product_variants (working s) !! i), s).

(** An assignment to an attribute of the row a reference points to. *)
Definition update_client (i : Z) (f : Client.t -> Client.t) : M unit :=
  let* d := get_working in put_working (with_clients d (alter f i (clients d))).

Definition update_product_variant (i : Z) (f : ProductVariant.t -> ProductVariant.t)
  : M unit :=
  let* d := get_working in
  put_working (with_product_variants d (alter f i (product_variants d))).

Definition update_sale (i : Z) (f : Sale.t -> Sale.t) : M unit :=
  let* d := get_working in put_working (with_sales d (alter f i (sales d))).

(** The truth value of an [Optional[int]]: [None] and [0] are false. *)
Definition truthy (o : option Z) : bool :=
  match o with
  | Some n => negb (n =? 0)
  | None => false
  end.

Definition receipt_taken (rn : string) (d : DB) : bool :=
  existsb (fun kv => String.eqb (Sale.receipt_number (snd kv)) rn)
          (map_to_list (sales d)).

Definition client_fk_ok (o : option Z) (d : DB) : bool :=
  match o with
  | Some c => bool_decide (is_Some (clients d !! c))
  | None => true
  end.

(** [db.add(db_sale); db.flush()]: the INSERT into [sales], under the
    unique constraint on [receipt_number] and the foreign key of
    [client_id]; gives the new row's [id]. *)
Definition add_sale_flush (row : Sale.t) : M Z :=
  let* d := get_working in
  if receipt_taken (Sale.receipt_number row) d then
    raise (IntegrityError "sales.receipt_number")
  else if negb (client_fk_ok (Sale.client_id row) d) then
    raise (IntegrityError "sales.client_id")
  else
    let k := next_key (map fst (map_to_list (sales d))) in
    put_working (with_sales d (<[k := row]> (sales d))) ;;;
    ret k.

(** [db.add(sale_item)].  A pending INSERT is carried out with the next
    flush; the functions below commit (or fail) before anything reads the
    table again, so the row is added to [working] at once. *)
Definition add_sale_item (sale_id product_variant_id quantity : Z)
    (unit_price total_price : Decimal) : M unit :=
  let* d := get_working in
  let k := next_key (map SaleItem.id (sale_items d)) in
  put_working (with_sale_items d (sale_items d ++
    [ {| SaleItem.id := k; SaleItem.sale_id := sale_id;
         SaleItem.product_variant_id := product_variant_id;
         SaleItem.quantity := quantity; SaleItem.unit_price := unit_price;
         SaleItem.total_price := total_price |} ])).

(** *** Building and inserting a [Transaction]

    [Transaction] has no [__init__] of its own.  Its base class [Base]
    comes from [app.database], which is not among the sources, and is
    taken to be SQLAlchemy's declarative base: the constructor takes
    keyword arguments only, raises [TypeError] at the first keyword that
    is not an attribute of the class, and sets the others on the
    instance. *)
Inductive pyval : Type :=
  | PNone
  | PInt (n : Z)
  | PDec (d : Decimal)
  | PText (s : fstring)
  | PType (t : TransactionType).

Definition kwargs := list (string * pyval).

Definition of_optional (o : option Z) : pyval :=
  match o with
  | Some n => PInt n
  | None => PNone
  end.

Definition Transaction_init (kw : kwargs) : M kwargs :=
  match find (fun k => negb (existsb (String.eqb k) Transaction.attrs))
             (map fst kw) with
  | Some k => raise (TypeError k "Transaction")
  | None => ret kw
  end.

(** An attribute of the instance; one that was never set reads [None]. *)
Fixpoint attr (k : string) (obj : kwargs) : pyval :=
  match obj with
  | [] => PNone
  | (k', v) :: obj' => if String.eqb k k' then v else attr k obj'
  end.

Definition optional_int (v : pyval) : option Z :=
  match v with
  | PInt n => Some n
  | _ => None
  end.

Definition optional_text (v : pyval) : option fstring :=
  match v with
  | PText s => Some s
  | _ => None
  end.

(** What the environment of one request supplies: the draw of
    [generate_receipt_number()], the database clock behind
    [server_default=func.now()], and [datetime.utcnow()]. *)
Record Env := { receipt_draw : string; db_now : Z; utcnow : Z }.

(** [db.add(transaction)]: the INSERT into [transactions], under the
    [nullable=False] of [user_id], [amount] and [transaction_type];
    [created_at] defaults to the database clock. *)
Definition add_transaction (env : Env) (obj : kwargs) : M unit :=
  match attr "user_id" obj with
  | PInt user_id =>
    match attr "amount" obj with
    | PDec amount =>
      match attr "transaction_type" obj with
      | PType transaction_type =>
        let* d := get_working in
        let k := next_key (map Transaction.id (transactions d)) in
        put_working (with_transactions d (transactions d ++
          [ {| Transaction.id := k;
               Transaction.user_id := user_id;
               Transaction.amount := amount;
               Transaction.description := optional_text (attr "description" obj);
               Transaction.transaction_type := transaction_type;
               Transaction.sale_id := optional_int (attr "sale_id" obj);
               Transaction.client_id := optional_int (attr "client_id" obj);
               Transaction.created_at :=
                 match attr "created_at" obj with
                 | PInt t => t
                 | _ => db_now env
                 end |} ]))
      | _ => raise (IntegrityError "transactions.transaction_type")
      end
    | _ => raise (IntegrityError "transactions.amount")
    end
  | _ => raise (IntegrityError "transactions.user_id")
  end.

(** ** [SaleService.create_sale] *)

(** The dict appended to [sale_items]; ["product_variant"] holds the row
    object that the query returned, that is a reference to it. *)
Record item_info := {
  product_variant : Z;
  data : SaleItemCreate.t;
  total : Decimal
}.

(** Body of the first loop: the variables it assigns are [total_amount]
    and [sale_items]. *)
Definition check_item (acc : Decimal * list item_info)
    (item_data : SaleItemCreate.t) : M (Decimal * list item_info) :=
  let '(total_amount, sale_items) := acc in
  let* product_variant :=
    query_product_variant (SaleItemCreate.product_variant_id item_data) in
  match product_variant with
  | None =>
    raise (HTTPException 400
             [Lit "Product variant with ID ";
              FInt (SaleItemCreate.product_variant_id item_data);
              Lit " not found"])
  | Some pv =>
    if ProductVariant.stock_quantity pv <? SaleItemCreate.quantity item_data then
      raise (HTTPException 400
               [Lit "Insufficient stock for product variant ";
                FStr (ProductVariant.sku pv)])
    else
      let item_total :=
        SaleItemCreate.unit_price item_data * SaleItemCreate.quantity item_data in
      ret (total_amount + item_total,
           sale_items ++
             [ {| product_variant := SaleItemCreate.product_variant_id item_data;
                  data := item_data;
                  total := item_total |} ])
  end.

(** Body of the second loop. *)
Definition persist_item (db_sale : Z) (_ : unit) (info : item_info) : M unit :=
  add_sale_item db_sale (product_variant info)
    (SaleItemCreate.quantity (data info))
    (SaleItemCreate.unit_price (data info)) (total info) ;;;
  update_product_variant (product_variant info)
    (fun v => ProductVariant.with_stock_quantity v
                (ProductVariant.stock_quantity v
                 - SaleItemCreate.quantity (data info))).

Definition sale_status_of (paid_amount total_amount : Decimal) : SaleStatus :=
  if paid_amount =? 0 then DEBT
  else if paid_amount =? total_amount then COMPLETED
  else PARTIALLY_PAID.

(** The local variable [client] is bound only in the first branch: [None]
    stands for the unbound name.  The result is the reference [db_sale]. *)
Definition create_sale (env : Env) (sale_data : SaleCreate.t)
    (current_user : User.t) : M Z :=
  let* client :=
    (if truthy (SaleCreate.client_id sale_data) then
       let cid := default 0 (SaleCreate.client_id sale_data) in
       let* found := query_client cid in
       match found with
       | None => raise (HTTPException 400 [Lit "Client not found"])
       | Some _ => ret (Some cid)
       end
     else ret None) in
  let* (total_amount, sale_items) :=
    for_each (SaleCreate.items sale_data) check_item (0, []) in
  (if total_amount <? SaleCreate.paid_amount sale_data then
     raise (HTTPException 400 [Lit "Paid amount cannot exceed total amount"])
   else ret tt) ;;;
  let sale_status := sale_status_of (SaleCreate.paid_amount sale_data) total_amount in
  (if SaleCreate.paid_amount sale_data <? total_amount then
     match client with
     | None => raise (UnboundLocalError "client")
     | Some c =>
       update_client c (fun r =>
         Client.with_debt_amount r
           (Client.debt_amount r
            + (total_amount - SaleCreate.paid_amount sale_data))) ;;;
       commit
     end
   else ret tt) ;;;
  let receipt_number := receipt_draw env in
  let* db_sale :=
    add_sale_flush
      {| Sale.receipt_number := receipt_number;
         Sale.client_id := SaleCreate.client_id sale_data;
         Sale.total_amount := total_amount;
         Sale.paid_amount := SaleCreate.paid_amount sale_data;
         Sale.payment_method := SaleCreate.payment_method sale_data;
         Sale.status := sale_status;
         Sale.notes := SaleCreate.notes sale_data;
         Sale.user_id := User.id current_user |} in
  for_each sale_items (persist_item db_sale) tt ;;;
  (if 0 <? SaleCreate.paid_amount sale_data then
     let* transaction :=
       Transaction_init
         [("transaction_type", PType SALE);
          ("amount", PDec (SaleCreate.paid_amount sale_data));
          ("description",
           PText [Lit "Sale "; FStr receipt_number; Lit " - Paid amount"]);
          ("sale_id", PInt db_sale);
          ("client_id", of_optional (SaleCreate.client_id sale_data));
          ("user_id", PInt (User.id current_user))] in
     add_transaction env transaction
   else ret tt) ;;;
  commit ;;;
  ret db_sale.

(** ** [SaleService.get_sale], [pay_debt] and [cancel_sale] *)

Definition get_sale (sale_id : Z) : M (option Sale.t) :=
  fun s => (inr (sales (working s) !! sale_id), s).

(** [sale.items]: the rows of [sale_items] that belong to the sale. *)
Definition items_of (sale_id : Z) (d : DB) : list SaleItem.t :=
  filter (fun it => SaleItem.sale_id it = sale_id) (sale_items d).

(** The result is the reference [sale]. *)
Definition pay_debt (env : Env) (sale_id : Z) (payment_amount : Decimal)
    (current_user : User.t) : M Z :=
  let* sale := get_sale sale_id in
  match sale with
  | None => raise (HTTPException 404 [Lit "Sale not found"])
  | Some sale =>
    if decide (Sale.status sale = CANCELLED) then
      raise (HTTPException 400 [Lit "Cannot pay debt for cancelled sale"])
    else if decide (Sale.status sale = COMPLETED) then
      raise (HTTPException 400 [Lit "Sale is already fully paid"])
    else
      let remaining_debt := Sale.total_amount sale - Sale.paid_amount sale in
      if remaining_debt <? payment_amount then
        raise (HTTPException 400
                 [Lit "Payment amount exceeds remaining debt. Remaining debt: ";
                  FDec remaining_debt])
      else
        let paid_amount := Sale.paid_amount sale + payment_amount in
        update_sale sale_id (fun r => Sale.with_paid_amount r paid_amount) ;;;
        update_sale sale_id (fun r =>
          Sale.with_status r
            (if paid_amount =? Sale.total_amount sale then COMPLETED
             else PARTIALLY_PAID)) ;;;
        let* transaction :=
          Transaction_init
            [("transaction_type", PType DEBT_PAYMENT);
             ("amount", PDec payment_amount);
             ("description",
              PText [Lit "Debt payment for sale ";
                     FStr (Sale.receipt_number sale)]);
             ("sale_id", PInt sale_id);
             ("client_id", of_optional (Sale.client_id sale));
             ("user_id", PInt (User.id current_user))] in
        add_transaction env transaction ;;;
        commit ;;;
        ret sale_id
  end.

(** Body of the loop that restores the stock. *)
Definition restore_item (_ : unit) (item : SaleItem.t) : M unit :=
  let* product_variant := query_product_variant (SaleItem.product_variant_id item) in
  match product_variant with
  | Some _ =>
    update_product_variant (SaleItem.product_variant_id item)
      (fun v => ProductVariant.with_stock_quantity v
                  (ProductVariant.stock_quantity v + SaleItem.quantity item))
  | None => ret tt
  end.

(** [None] for a sale that does not exist, else the reference [sale]. *)
Definition cancel_sale (env : Env) (sale_id : Z) : M (option Z) :=
  let* sale := get_sale sale_id in
  match sale with
  | None => ret None
  | Some sale =>
    if decide (Sale.status sale = CANCELLED) then
      raise (HTTPException 400 [Lit "Sale is already cancelled"])
    else
      let* d := get_working in
      for_each (items_of sale_id d) restore_item tt ;;;
      update_sale sale_id (fun r => Sale.with_status r CANCELLED) ;;;
      let* transaction :=
        Transaction_init
          [("type", PType REFUND);
           ("amount", PDec (- Sale.total_amount sale));
           ("description",
            PText [Lit "Refund for cancelled sale ";
                   FStr (Sale.receipt_number sale)]);
           ("sale_id", PInt sale_id);
           ("client_id", of_optional (Sale.client_id sale));
           ("reference_number",
            PText [Lit "REF-"; FStr (Sale.receipt_number sale)])] in
      add_transaction env transaction ;;;
      commit ;;;
      ret (Some sale_id)
  end.

(** ** The handlers of [app/api/sales.py] *)

(** [process_debt_payment]; the result is the [data] of the response:
    [client_id], [payment_amount], [new_debt_amount]. *)
Definition process_debt_payment (env : Env) (payment_data : DebtPaymentRequest.t)
    (current_user : User.t) : M (Z * Decimal * Decimal) :=
  let cid := DebtPaymentRequest.client_id payment_data in
  let payment_amount := DebtPaymentRequest.payment_amount payment_data in
  let* client := query_client cid in
  match client with
  | None => raise (HTTPException 404 [Lit "Client not found"])
  | Some client =>
    if Client.debt_amount client <? payment_amount then
      raise (HTTPException 400 [Lit "Payment amount exceeds debt amount"])
    else
      update_client cid (fun r =>
        Client.with_debt_amount r (Client.debt_amount r - payment_amount)) ;;;
      commit ;;;
      let* transaction :=
        Transaction_init
          [("client_id", PInt cid);
           ("user_id", PInt (User.id current_user));
           ("amount", PDec payment_amount);
           ("transaction_type", PType DEBT_PAYMENT);
           ("description", PText [Lit "Debt payment of "; FDec payment_amount]);
           ("created_at", PInt (utcnow env))] in
      add_transaction env transaction ;;;
      commit ;;;
      ret (cid, payment_amount, Client.debt_amount client - payment_amount)
  end.

(** An element of the list [debt_history].  [amount] and [balance] go
    through [float()] on the way out; they are kept as the [Decimal]
    values that are converted. *)
Record DebtEntry := {
  entry_id : Z;
  entry_type : string;
  entry_amount : Decimal;
  entry_balance : Decimal;
  entry_created_at : Z
}.

(** [.order_by(Transaction.created_at.desc())] *)
Definition created_desc (a b : Transaction.t) : Prop :=
  Transaction.created_at b <= Transaction.created_at a.

#[global] Instance created_desc_dec : RelDecision created_desc.
Proof. intros a b. unfold created_desc. apply _. Defined.

Definition order_by_created_at_desc (l : list Transaction.t) : list Transaction.t :=
  merge_sort created_desc l.

(** Body of the loop: the variables it assigns are [debt_history] and
    [balance]. *)
Definition replay (acc : list DebtEntry * Decimal) (transaction : Transaction.t)
  : list DebtEntry * Decimal :=
  let '(debt_history, balance) := acc in
  let balance :=
    if decide (Transaction.transaction_type transaction = SALE) then
      balance + Transaction.amount transaction
    else if decide (Transaction.transaction_type transaction = DEBT_PAYMENT) then
      balance - Transaction.amount transaction
    else balance in
  (debt_history ++
     [ {| entry_id := Transaction.id transaction;
          entry_type :=
            TransactionType_value (Transaction.transaction_type transaction);
          entry_amount := Transaction.amount transaction;
          entry_balance := balance;
          entry_created_at := Transaction.created_at transaction |} ],
   balance).

Definition get_client_debt_history (client_id : Z) : M (list DebtEntry) :=
  let* client := query_client client_id in
  match client with
  | None => raise (HTTPException 404 [Lit "Client not found"])
  | Some _ =>
    let* d := get_working in
    let transactions :=
      order_by_created_at_desc
        (filter (fun t => Transaction.client_id t = Some client_id)
                (transactions d)) in
    ret (fst (fold_left replay transactions ([], 0)))
  end.

(** ** Sequences of requests *)

Inductive Op : Type :=
  | CreateSale (env : Env) (sale_data : SaleCreate.t) (current_user : User.t)
  | PayDebt (env : Env) (sale_id : Z) (payment_amount : Decimal)
            (current_user : User.t)
  | CancelSale (env : Env) (sale_id : Z).

(** The store after a request, whatever its outcome. *)
Definition step (d : DB) (o : Op) : DB :=
  match o with
  | CreateSale env sale_data current_user =>
    snd (serve (create_sale env sale_data current_user) d)
  | PayDebt env sale_id payment_amount current_user =>
    snd (serve (pay_debt env sale_id payment_amount current_user) d)
  | CancelSale env sale_id => snd (serve (cancel_sale env sale_id) d)
  end.

Definition run (d : DB) (ops : list Op) : DB := fold_left step ops d.

(** ** Notions used by the statements *)

(** The total of a request: the sum over its items of
    [unit_price * quantity]. *)
Definition request_total (items : list SaleItemCreate.t) : Decimal :=
  fold_right (fun it acc =>
                SaleItemCreate.unit_price it * SaleItemCreate.quantity it + acc)
             0 items.

Definition info_of (it : SaleItemCreate.t) : item_info :=
  {| product_variant := SaleItemCreate.product_variant_id it;
     data := it;
     total := SaleItemCreate.unit_price it * SaleItemCreate.quantity it |}.

(** An item passes the validation of the first loop on the store [d]. *)
Definition item_ok (d : DB) (it : SaleItemCreate.t) : bool :=
  match product_variants d !! SaleItemCreate.product_variant_id it with
  | Some pv => SaleItemCreate.quantity it <=? ProductVariant.stock_quantity pv
  | None => false
  end.

(** The pieces of the variant [v] that a request asks for, over all its
    items. *)
Definition requested (v : Z) (items : list SaleItemCreate.t) : Z :=
  fold_right (fun it acc =>
                (if SaleItemCreate.product_variant_id it =? v
                 then SaleItemCreate.quantity it else 0) + acc)
             0 items.

(** A variant after [n] pieces are taken from its stock. *)
Definition taken (n : Z) (pv : ProductVariant.t) : ProductVariant.t :=
  ProductVariant.with_stock_quantity pv (ProductVariant.stock_quantity pv - n).

(** The errors that the first loop raises. *)
Definition item_error (e : Exc) : Prop :=
  exists detail, e = HTTPException 400 detail.

(** The row that [create_sale] inserts into [sales]. *)
Definition new_sale (env : Env) (sale_data : SaleCreate.t) (current_user : User.t)
  : Sale.t :=
  {| Sale.receipt_number := receipt_draw env;
     Sale.client_id := SaleCreate.client_id sale_data;
     Sale.total_amount := request_total (SaleCreate.items sale_data);
     Sale.paid_amount := SaleCreate.paid_amount sale_data;
     Sale.payment_method := SaleCreate.payment_method sale_data;
     Sale.status :=
       sale_status_of (SaleCreate.paid_amount sale_data)
                      (request_total (SaleCreate.items sale_data));
     Sale.notes := SaleCreate.notes sale_data;
     Sale.user_id := User.id current_user |}.

(** The client after the unpaid part of a sale is added to the debt, the
    ledger entry of the paid part, and a [sale_items] row without its
    [id]. *)
Definition indebted (unpaid : Decimal) (c : Client.t) : Client.t :=
  Client.with_debt_amount c (Client.debt_amount c + unpaid).

Definition sale_entry (env : Env) (d : DB) (sale_data : SaleCreate.t)
    (current_user : User.t) (db_sale : Z) : Transaction.t :=
  {| Transaction.id := next_key (map Transaction.id (transactions d));
     Transaction.user_id := User.id current_user;
     Transaction.amount := SaleCreate.paid_amount sale_data;
     Transaction.description :=
       Some [Lit "Sale "; FStr (receipt_draw env); Lit " - Paid amount"];
     Transaction.transaction_type := SALE;
     Transaction.sale_id := Some db_sale;
     Transaction.client_id := SaleCreate.client_id sale_data;
     Transaction.created_at := db_now env |}.

Definition item_columns (r : SaleItem.t) : Z * Z * Z * Decimal * Decimal :=
  (SaleItem.sale_id r, SaleItem.product_variant_id r, SaleItem.quantity r,
   SaleItem.unit_price r, SaleItem.total_price r).

Definition item_row (db_sale : Z) (it : SaleItemCreate.t)
  : Z * Z * Z * Decimal * Decimal :=
  (db_sale, SaleItemCreate.product_variant_id it, SaleItemCreate.quantity it,
   SaleItemCreate.unit_price it,
   SaleItemCreate.unit_price it * SaleItemCreate.quantity it).

(** The sale after an accepted payment, and the ledger entry of it. *)
Definition paid_sale (sale : Sale.t) (payment_amount : Decimal) : Sale.t :=
  Sale.with_status
    (Sale.with_paid_amount sale (Sale.paid_amount sale + payment_amount))
    (if Sale.paid_amount sale + payment_amount =? Sale.total_amount sale
     then COMPLETED else PARTIALLY_PAID).

Definition payment_entry (env : Env) (d : DB) (sale_id : Z) (sale : Sale.t)
    (payment_amount : Decimal) (current_user : User.t) : Transaction.t :=
  {| Transaction.id := next_key (map Transaction.id (transactions d));
     Transaction.user_id := User.id current_user;
     Transaction.amount := payment_amount;
     Transaction.description :=
       Some [Lit "Debt payment for sale "; FStr (Sale.receipt_number sale)];
     Transaction.transaction_type := DEBT_PAYMENT;
     Transaction.sale_id := Some sale_id;
     Transaction.client_id := Sale.client_id sale;
     Transaction.created_at := db_now env |}.

(** The contribution of a ledger entry to the running balance of the debt
    history, and the balance after a list of entries, starting at 0. *)
Definition signed_amount (t : Transaction.t) : Decimal :=
  match Transaction.transaction_type t with
  | SALE => Transaction.amount t
  | DEBT_PAYMENT => - Transaction.amount t
  | _ => 0
  end.

Definition balance_after (ts : list Transaction.t) : Decimal :=
  fold_right (fun t acc => signed_amount t + acc) 0 ts.

(** The ledger entries of a client, in table order. *)
Definition transactions_of (client_id : Z) (d : DB) : list Transaction.t :=
  filter (fun t => Transaction.client_id t = Some client_id) (transactions d).

(** The store after an accepted payment. *)
Definition paid_db (env : Env) (d : DB) (sale_id : Z) (sale : Sale.t)
    (payment_amount : Decimal) (current_user : User.t) : DB :=
  with_transactions
    (with_sales d (<[sale_id := paid_sale sale payment_amount]> (sales d)))
    (transactions d
     ++ [payment_entry env d sale_id sale payment_amount current_user]).

(** The element of [debt_history] for a ledger entry, given the balance. *)
Definition entry_of (t : Transaction.t) (balance : Decimal) : DebtEntry :=
  {| entry_id := Transaction.id t;
     entry_type := TransactionType_value (Transaction.transaction_type t);
     entry_amount := Transaction.amount t;
     entry_balance := balance;
     entry_created_at := Transaction.created_at t |}.

(** Status and amounts of a sale that is not cancelled. *)
Definition status_inv (s : Sale.t) : Prop :=
  Sale.status s <> CANCELLED ->
  (Sale.status s = COMPLETED -> Sale.paid_amount s = Sale.total_amount s)
  /\ (Sale.paid_amount s = Sale.total_amount s ->
      Sale.status s = COMPLETED
      \/ (Sale.status s = DEBT /\ Sale.total_amount s = 0)).

Definition paid_within_total (s : Sale.t) : Prop :=
  Sale.paid_amount s <= Sale.total_amount s.

Definition paid_nonneg (s : Sale.t) : Prop := 0 <= Sale.paid_amount s.

#[global] Instance status_inv_dec s : Decision (status_inv s).
Proof. unfold status_inv. apply _. Defined.

#[global] Instance paid_within_total_dec s : Decision (paid_within_total s).
Proof. unfold paid_within_total. apply _. Defined.

#[global] Instance paid_nonneg_dec s : Decision (paid_nonneg s).
Proof. unfold paid_nonneg. apply _. Defined.

(** The amount that a request brings is not negative. *)
Definition nonneg_op (o : Op) : bool :=
  match o with
  | CreateSale _ sale_data _ => 0 <=? SaleCreate.paid_amount sale_data
  | PayDebt _ _ payment_amount _ => 0 <=? payment_amount
  | CancelSale _ _ => true
  end.

(** ** A shop, for the scenarios

    Amounts are in hundredths: [100000] is 1000.00. *)

Definition cashier : User.t := {| User.id := 1 |}.

Definition today : Env :=
  {| receipt_draw := "RCP-20240101-AAAAAAAA"; db_now := 100; utcnow := 100 |}.

Definition later : Env :=
  {| receipt_draw := "RCP-20240102-BBBBBBBB"; db_now := 200; utcnow := 200 |}.

Definition shop : DB :=
  {| clients := {[ 1 := {| Client.debt_amount := 0 |} ]};
     product_variants :=
       {[ 7 := {| ProductVariant.sku := "SKU-7";
                  ProductVariant.price := 100000;
                  ProductVariant.stock_quantity := 5 |};
          8 := {| ProductVariant.sku := "SKU-8";
                  ProductVariant.price := 50000;
                  ProductVariant.stock_quantity := 2 |} ]};
     sales := ∅;
     sale_items := [];
     transactions := [] |}.

Definition line (product_variant_id quantity : Z) (unit_price : Decimal)
  : SaleItemCreate.t :=
  {| SaleItemCreate.product_variant_id := product_variant_id;
     SaleItemCreate.quantity := quantity;
     SaleItemCreate.unit_price := unit_price |}.

Definition order (client_id : option Z) (paid_amount : Decimal)
    (items : list SaleItemCreate.t) : SaleCreate.t :=
  {| SaleCreate.client_id := client_id;
     SaleCreate.paid_amount := paid_amount;
     SaleCreate.payment_method := CASH;
     SaleCreate.notes := None;
     SaleCreate.items := items |}.

(** Two items, 3 at 1000.00 and 1 at 500.00, of which 2000.00 is paid. *)
Definition partly_paid_order : SaleCreate.t :=
  order (Some 1) 200000 [line 7 3 100000; line 8 1 50000].

Definition shop_after_sale : DB :=
  snd (serve (create_sale today partly_paid_order cashier) shop).

(** A completed sale of 4 pieces of a variant, the stock being 1 after
    it. *)
Definition shop_with_completed_sale : DB :=
  {| clients := {[ 1 := {| Client.debt_amount := 0 |} ]};
     product_variants :=
       {[ 7 := {| ProductVariant.sku := "SKU-7";
                  ProductVariant.price := 100000;
                  ProductVariant.stock_quantity := 1 |} ]};
     sales :=
       {[ 1 := {| Sale.receipt_number := "RCP-20240101-AAAAAAAA";
                  Sale.client_id := Some 1;
                  Sale.total_amount := 400000;
                  Sale.paid_amount := 400000;
                  Sale.payment_method := CASH;
                  Sale.status := COMPLETED;
                  Sale.notes := None;
                  Sale.user_id := 1 |} ]};
     sale_items :=
       [ {| SaleItem.id := 1; SaleItem.sale_id := 1;
            SaleItem.product_variant_id := 7; SaleItem.quantity := 4;
            SaleItem.unit_price := 100000; SaleItem.total_price := 400000 |} ];
     transactions :=
       [ {| Transaction.id := 1; Transaction.user_id := 1;
            Transaction.amount := 400000;
            Transaction.description := None;
            Transaction.transaction_type := SALE;
            Transaction.sale_id := Some 1;
            Transaction.client_id := Some 1;
            Transaction.created_at := 100 |} ] |}.

(** A client with a sale entry of 500.00 followed by a payment of
    200.00. *)
Definition shop_with_ledger : DB :=
  {| clients := {[ 1 := {| Client.debt_amount := 0 |} ]};
     product_variants := ∅;
     sales := ∅;
     sale_items := [];
     transactions :=
       [ {| Transaction.id := 1; Transaction.user_id := 1;
            Transaction.amount := 50000;
            Transaction.description := None;
            Transaction.transaction_type := SALE;
            Transaction.sale_id := None;
            Transaction.client_id := Some 1;
            Transaction.created_at := 100 |};
         {| Transaction.id := 2; Transaction.user_id := 1;
            Transaction.amount := 20000;
            Transaction.description := None;
            Transaction.transaction_type := DEBT_PAYMENT;
            Transaction.sale_id := None;
            Transaction.client_id := Some 1;
            Transaction.created_at := 200 |} ] |}.

(** * Further functions of the ledger *)

(** ** [app/utils/helpers.py]: pagination *)

(** The ways the helpers below fail: the [ZeroDivisionError] of [//], and
    a statement that the database refuses (PostgreSQL, the database of
    [app/config.py], refuses a negative OFFSET or LIMIT). *)
Inductive Failure : Type :=
  | ZeroDivisionError
  | StatementRejected (clause : string).

(** [paginate_query(query, page, size)], read with [.all()].  A query is
    represented by the rows it selects, in the order it selects them. *)
Definition paginate_query {A} (query : list A) (page size : Z) : Failure + list A :=
  let offset := (page - 1) * size in
  if offset <? 0 then inl (StatementRejected "OFFSET")
  else if size <? 0 then inl (StatementRejected "LIMIT")
  else inr (take (Z.to_nat size) (drop (Z.to_nat offset) query)).

(** The dict that [calculate_pagination_info] returns. *)
Record PaginationInfo := {
  info_page : Z;
  info_size : Z;
  info_total : Z;
  info_pages : Z
}.

(** [//] is the floor division of [Z]. *)
Definition calculate_pagination_info (total page size : Z)
  : Failure + PaginationInfo :=
  if size =? 0 then inl ZeroDivisionError
  else
    let pages := (total + size - 1) / size in
    inr {| info_page := page; info_size := size; info_total := total;
           info_pages := pages |}.

(** The rows of the pages 1 to [n], one page after the other. *)
Definition pages_upto {A} (query : list A) (size : Z) (n : nat) : list A :=
  flat_map (fun p => match paginate_query query (Z.of_nat p) size with
                     | inr rows => rows
                     | inl _ => []
                     end)
           (seq 1 n).

(** ** [SaleService.get_client_debts] and [get_sales_summary] *)

#[global] Instance PaymentMethod_eq_dec : EqDecision PaymentMethod.
Proof. solve_decision. Defined.

(** A row of [sales] with its [id].  [Sale.created_at], set by the
    database when the row is inserted, is not among the columns of
    [Sale.t]: the queries that order or filter by it take the column as a
    function of the sale's [id]. *)
Definition SaleRow : Type := Z * Sale.t.

(** [.order_by(Sale.created_at.desc())] *)
Definition sale_created_desc (created_at : Z -> Z) (a b : SaleRow) : Prop :=
  created_at (fst b) <= created_at (fst a).

#[global] Instance sale_created_desc_dec created_at
  : RelDecision (sale_created_desc created_at).
Proof. intros a b. unfold sale_created_desc. apply _. Defined.

(** [Sale.status.in_([SaleStatus.DEBT, SaleStatus.PARTIALLY_PAID])] *)
Definition owing (s : Sale.t) : Prop :=
  Sale.status s = DEBT \/ Sale.status s = PARTIALLY_PAID.

#[global] Instance owing_dec s : Decision (owing s).
Proof. unfold owing. apply _. Defined.

Definition get_client_debts (created_at : Z -> Z) (client_id : Z)
  : M (list SaleRow) :=
  let* d := get_working in
  ret (merge_sort (sale_created_desc created_at)
         (filter (fun r : SaleRow =>
                    Sale.client_id (snd r) = Some client_id /\ owing (snd r))
                 (map_to_list (sales d)))).

(** [func.sum] over no row is NULL, and [x or Decimal("0")] replaces a
    NULL and a zero. *)
Definition sql_sum (xs : list Decimal) : option Decimal :=
  match xs with
  | [] => None
  | _ => Some (fold_right Z.add 0 xs)
  end.

Definition or_zero (v : option Decimal) : Decimal :=
  match v with
  | Some x => if x =? 0 then 0 else x
  | None => 0
  end.

(** An element of ["payment_methods"], and the dict of the summary. *)
Record MethodSummary := {
  method : PaymentMethod;
  count : Z;
  total_of_method : Decimal
}.

Record SalesSummary := {
  total_sales : Z;
  total_revenue : Decimal;
  payment_methods : list MethodSummary
}.

(** The group of one payment method under [group_by]; a method without
    rows has no group. *)
Definition method_group (query : list SaleRow) (m : PaymentMethod)
  : list MethodSummary :=
  match filter (fun r : SaleRow => Sale.payment_method (snd r) = m) query with
  | [] => []
  | rows =>
    [ {| method := m;
         count := Z.of_nat (length rows);
         total_of_method :=
           fold_right Z.add 0 (map (fun r : SaleRow => Sale.total_amount (snd r)) rows) |} ]
  end.

(** The filters of [get_sales_summary], on the rows of [sales]. *)
Definition summary_rows (created_at : Z -> Z) (start_date end_date : option Z)
    (rows : list SaleRow) : list SaleRow :=
  let query :=
    filter (fun r : SaleRow => Sale.status (snd r) = COMPLETED) rows in
  let query :=
    match start_date with
    | Some t => filter (fun r : SaleRow => t <= created_at (fst r)) query
    | None => query
    end in
  match end_date with
  | Some t => filter (fun r : SaleRow => created_at (fst r) <= t) query
  | None => query
  end.

(** The rows that [get_sales_summary] aggregates. *)
Definition summary_query (created_at : Z -> Z) (start_date end_date : option Z)
    (d : DB) : list SaleRow :=
  summary_rows created_at start_date end_date (map_to_list (sales d)).

(** The groups come in an order that the database chooses; here in the
    order of the enumeration. *)
Definition get_sales_summary (created_at : Z -> Z) (start_date end_date : option Z)
  : M SalesSummary :=
  let* d := get_working in
  let query := summary_query created_at start_date end_date d in
  let total_sales := Z.of_nat (length query) in
  let total_revenue :=
    or_zero (sql_sum (map (fun r : SaleRow => Sale.total_amount (snd r)) query)) in
  let payment_methods := flat_map (method_group query) [CASH; CARD; TRANSFER] in
  ret {| total_sales := total_sales;
         total_revenue := total_revenue;
         payment_methods := payment_methods |}.

(** ** [ClientService.update_client_debt] and [get_clients_with_debt] *)



(** ** The handler [cancel_sale] of [app/api/sales.py] *)

(** [ResponseModel] of [app/schemas/common.py], for a response without
    [data] and without [errors]. *)
Record ResponseModel := {
  success : bool;
  message : option fstring
}.

(** [try: ... except HTTPException as e: ...]; any other exception leaves
    the handler. *)
Definition cancel_sale_endpoint (env : Env) (sale_id : Z) : M ResponseModel :=
  fun s =>
    match cancel_sale env sale_id s with
    | (inr None, s') =>
      (inr {| success := false; message := Some [Lit "Sale not found"] |}, s')
    | (inr (Some _), s') =>
      (inr {| success := true;
              message := Some [Lit "Sale cancelled successfully"] |}, s')
    | (inl (HTTPException _ detail), s') =>
      (inr {| success := false; message := Some detail |}, s')
    | (inl e, s') => (inl e, s')
    end.

(** ** Requests of both debt paths, in sequence *)

Inductive Request : Type :=
  | Ledger (o : Op)
  | ClientPayment (env : Env) (payment_data : DebtPaymentRequest.t)
                  (current_user : User.t).

Definition handle (d : DB) (r : Request) : DB :=
  match r with
  | Ledger o => step d o
  | ClientPayment env payment_data current_user =>
    snd (serve (process_debt_payment env payment_data current_user) d)
  end.

Definition handle_all (d : DB) (rs : list Request) : DB := fold_left handle rs d.

(** ** Notions used by the further statements *)





Definition debt_nonneg (c : Client.t) : Prop := 0 <= Client.debt_amount c.

#[global] Instance debt_nonneg_dec c : Decision (debt_nonneg c).
Proof. unfold debt_nonneg. apply _. Defined.

(** The dict of the summary of the rows [query]. *)
Definition summarise (query : list SaleRow) : SalesSummary :=
  {| total_sales := Z.of_nat (length query);
     total_revenue :=
       or_zero (sql_sum (map (fun r : SaleRow => Sale.total_amount (snd r)) query));
     payment_methods := flat_map (method_group query) [CASH; CARD; TRANSFER] |}.

(** The creation time [t] passes the bounds of [get_sales_summary]. *)
Definition within_dates (t : Z) (start_date end_date : option Z) : Prop :=
  from_option (fun a => a <= t) True start_date
  /\ from_option (fun b => t <= b) True end_date.

(** What a later request may not change of a stored sale. *)
Definition same_terms (a b : Sale.t) : Prop :=
  Sale.receipt_number a = Sale.receipt_number b
  /\ Sale.client_id a = Sale.client_id b
  /\ Sale.total_amount a = Sale.total_amount b
  /\ Sale.payment_method a = Sale.payment_method b
  /\ Sale.notes a = Sale.notes b
  /\ Sale.user_id a = Sale.user_id b.

(** ** Further scenarios *)

(** The creation times of the scenarios' sales, by [id]. *)
Definition created_on (sale_id : Z) : Z := 100 * sale_id.

(** The shop after 1500.00 is paid on the sale of the scenario. *)
Definition shop_after_payment : DB :=
  snd (serve (pay_debt later 1 150000 cashier) shop_after_sale).

(** The shop after the client pays 500.00 of the aggregate debt. *)
Definition payment_of_500 : DebtPaymentRequest.t :=
  {| DebtPaymentRequest.client_id := 1;
     DebtPaymentRequest.payment_amount := 50000 |}.



(** A day at the shop: the sale of the scenario, its payment in two
    parts, a payment of the client and a refused cancellation. *)
Definition a_day : list Request :=
  [ Ledger (CreateSale today partly_paid_order cashier);
    Ledger (PayDebt later 1 50000 cashier);
    ClientPayment later payment_of_500 cashier;
    Ledger (CancelSale later 1);
    Ledger (PayDebt later 1 100000 cashier) ].

(** * Properties *)

(** ** Running the unit of work *)

Lemma bind_run {A B} (m : M A) (f : A -> M B) s :
  bind m f s = match m s with
               | (inl e, s') => (inl e, s')
               | (inr a, s') => f a s'
               end.
Proof. reflexivity. Qed.

Lemma for_each_cons {A B} (x : A) xs (body : B -> A -> M B) b s :
  for_each (x :: xs) body b s =
  match body b x s with
  | (inl e, s') => (inl e, s')
  | (inr b', s') => for_each xs body b' s'
  end.
Proof. reflexivity. Qed.

Lemma optional_int_of_optional o : optional_int (of_optional o) = o.
Proof. by destruct o. Qed.

Lemma alter_twice_insert {A} (f g : A -> A) (i : Z) (m : gmap Z A) x :
  m !! i = Some x -> alter g i (alter f i m) = <[i := g (f x)]> m.
Proof.
  intros Hx. apply map_eq. intros j. destruct (decide (i = j)) as [->|Hne].
  - by rewrite lookup_insert_eq, !lookup_alter_eq, Hx.
  - by rewrite lookup_insert_ne, !lookup_alter_ne.
Qed.

Lemma alter_insert_found {A} (f : A -> A) (i : Z) (m : gmap Z A) x :
  m !! i = Some x -> alter f i m = <[i := f x]> m.
Proof.
  intros Hx. apply map_eq. intros j. destruct (decide (i = j)) as [->|Hne].
  - by rewrite lookup_insert_eq, lookup_alter_eq, Hx.
  - by rewrite lookup_insert_ne, lookup_alter_ne.
Qed.

(** ** The loops of [create_sale] and [cancel_sale] *)

(** One turn of the validation loop reads the store and either raises or
    extends [total_amount] and [sale_items]. *)
Lemma check_item_cases acc it s :
  (exists e, check_item acc it s = (inl e, s) /\ item_error e
             /\ item_ok (working s) it = false)
  \/ (check_item acc it s
       = (inr (fst acc + total (info_of it), snd acc ++ [info_of it]), s)
      /\ item_ok (working s) it = true).
Proof.
  destruct acc as [t infos].
  unfold check_item, bind, query_product_variant, item_ok. simpl.
  destruct (product_variants (working s) !! _) as [pv|] eqn:Hpv; simpl.
  - destruct (_ <? _) eqn:Hq.
    + left. eexists. split; [done|]. split; [by eexists|].
      apply Z.ltb_lt in Hq. apply Z.leb_gt. lia.
    + right. split; [done|]. apply Z.ltb_ge in Hq. apply Z.leb_le. lia.
  - left. eexists. split; [done|]. split; [by eexists|]. done.
Qed.

Lemma check_items_spec items : forall acc s,
  snd (for_each items check_item acc s) = s /\
  match fst (for_each items check_item acc s) with
  | inr (t, infos) =>
      t = fst acc + request_total items
      /\ infos = snd acc ++ map info_of items
      /\ forallb (item_ok (working s)) items = true
  | inl e => item_error e /\ forallb (item_ok (working s)) items = false
  end.
Proof.
  induction items as [|it items IH]; intros acc s.
  - simpl. split; [done|]. destruct acc as [t infos]. simpl.
    split; [lia|]. split; [by rewrite app_nil_r | done].
  - rewrite for_each_cons.
    destruct (check_item_cases acc it s) as [(e & -> & He & Hno)|[-> Hok]].
    + simpl. split; [done|]. split; [done|]. by rewrite Hno.
    + destruct (IH (fst acc + total (info_of it), snd acc ++ [info_of it]) s)
        as [IH1 IH2].
      split; [exact IH1|]. cbn [forallb]. rewrite Hok.
      destruct (fst (for_each items check_item _ s)) as [e|[t' infos']].
      * exact IH2.
      * destruct IH2 as (-> & -> & HF). simpl. split; [lia|].
        split; [by rewrite <- app_assoc | done].
Qed.

(** The second loop never raises; it touches [sale_items] and
    [product_variants] only, and takes from each variant the pieces that
    the items ask of it. *)
Lemma persist_items_spec k items : forall s,
  exists w rows,
    for_each (map info_of items) (persist_item k) tt s
    = (inr tt, {| committed := committed s; working := w |})
    /\ clients w = clients (working s)
    /\ sales w = sales (working s)
    /\ transactions w = transactions (working s)
    /\ sale_items w = sale_items (working s) ++ rows
    /\ map item_columns rows = map (item_row k) items
    /\ forall v, product_variants w !! v
                 = taken (requested v items) <$> product_variants (working s) !! v.
Proof.
  induction items as [|it items IH]; intros s.
  - exists (working s), []. simpl. unfold ret. destruct s as [c wk]. simpl.
    rewrite app_nil_r. repeat split.
    intros v. destruct (product_variants wk !! v) as [pv|]; [|done].
    simpl. unfold taken, ProductVariant.with_stock_quantity.
    rewrite Z.sub_0_r. by destruct pv.
  - cbn [map]. rewrite for_each_cons.
    unfold persist_item at 1, add_sale_item, update_product_variant, bind,
      get_working, put_working. simpl.
    match goal with |- context [for_each _ _ tt ?s1] =>
      destruct (IH s1) as (w & rows & -> & H1 & H2 & H3 & H4 & H5 & H6) end.
    simpl in *. eexists w, (_ :: rows).
    split; [done|]. split; [done|]. split; [done|]. split; [done|].
    split; [by rewrite H4, <- app_assoc|].
    split; [cbn [map]; by rewrite H5|].
    intros v. rewrite H6.
    destruct (decide (SaleItemCreate.product_variant_id it = v)) as [->|Hne].
    + rewrite lookup_alter_eq, Z.eqb_refl.
      destruct (product_variants (working s) !! _) as [pv|]; [|done].
      simpl. unfold taken, ProductVariant.with_stock_quantity. simpl.
      do 2 f_equal. lia.
    + rewrite lookup_alter_ne by done.
      destruct (Z.eqb_spec (SaleItemCreate.product_variant_id it) v); [done|].
      by rewrite Z.add_0_l.
Qed.

(** Neither does the loop that restores the stock. *)
Lemma restore_items_spec items : forall s,
  exists w, for_each items restore_item tt s
            = (inr tt, {| committed := committed s; working := w |})
    /\ clients w = clients (working s)
    /\ sales w = sales (working s)
    /\ transactions w = transactions (working s).
Proof.
  induction items as [|item items IH]; intros s.
  - exists (working s). simpl. unfold ret. by destruct s.
  - rewrite for_each_cons.
    unfold restore_item at 1, query_product_variant, update_product_variant,
      bind, get_working, put_working, ret.
    destruct (product_variants (working s) !! _).
    + match goal with |- context [for_each items _ tt ?s1] =>
        destruct (IH s1) as (w & -> & H1 & H2 & H3) end.
      by exists w.
    + destruct (IH s) as (w & -> & H1 & H2 & H3). by exists w.
Qed.

(** ** The outcomes of [create_sale] *)

Lemma create_sale_cases env sd u d r d' :
  let paid := SaleCreate.paid_amount sd in
  let total := request_total (SaleCreate.items sd) in
  serve (create_sale env sd u) d = (r, d') ->
  (exists e, r = inl e /\ sales d' = sales d
             /\ product_variants d' = product_variants d
             /\ sale_items d' = sale_items d
             /\ transactions d' = transactions d
             /\ (clients d' = clients d
                 \/ exists c constraint,
                      e = IntegrityError constraint
                      /\ SaleCreate.client_id sd = Some c
                      /\ paid < total
                      /\ clients d' = alter (indebted (total - paid)) c (clients d)))
  \/ (exists k, r = inr k
        /\ paid <= total
        /\ (paid < total -> truthy (SaleCreate.client_id sd) = true)
        /\ forallb (item_ok d) (SaleCreate.items sd) = true
        /\ k = next_key (map fst (map_to_list (sales d)))
        /\ sales d' = <[k := new_sale env sd u]> (sales d)
        /\ (forall v, product_variants d' !! v
                      = taken (requested v (SaleCreate.items sd))
                          <$> product_variants d !! v)
        /\ (exists rows, sale_items d' = sale_items d ++ rows
                         /\ map item_columns rows
                            = map (item_row k) (SaleCreate.items sd))
        /\ transactions d'
           = transactions d
             ++ (if 0 <? paid then [sale_entry env d sd u k] else [])
        /\ ((paid = total /\ clients d' = clients d)
            \/ (paid < total
                /\ exists c, SaleCreate.client_id sd = Some c
                     /\ clients d' = alter (indebted (total - paid)) c (clients d)))).
Proof.
  intros paid total. subst paid.
  unfold serve, create_sale. rewrite bind_run.
  set (s0 := {| committed := d; working := d |}).
  match goal with |- context [?m s0] =>
    match m with (if _ then _ else _) =>
      assert (HA : exists a, m s0 = (a, s0) /\
                (forall c, a = inr (Some c) ->
                           truthy (SaleCreate.client_id sd) = true
                           /\ SaleCreate.client_id sd = Some c));
      [|destruct HA as (a & -> & HA1)]
    end
  end.
  { destruct (truthy (SaleCreate.client_id sd)) eqn:Ht.
    - rewrite bind_run. unfold query_client. simpl.
      destruct (clients d !! _); eexists; (split; [reflexivity|]); [|done].
      intros c [= <-]. split; [done|].
      destruct (SaleCreate.client_id sd); [done|discriminate].
    - eexists. split; [reflexivity|]. intros c [=]. }
  destruct a as [e|client].
  { intros [= <- <-]. left. exists e. repeat split; try done. by left. }
  rewrite bind_run.
  destruct (check_items_spec (SaleCreate.items sd) (0, []) s0) as [Hs Hr].
  destruct (for_each (SaleCreate.items sd) check_item (0, []) s0)
    as [[e|[total_amount infos]] s1]; simpl in Hs, Hr; subst s1.
  { intros [= <- <-]. left. exists e. repeat split; try done. by left. }
  destruct Hr as (-> & -> & HF). rewrite !Z.add_0_l. fold total.
  rewrite bind_run.
  destruct (total <? SaleCreate.paid_amount sd) eqn:Hexceeds.
  { intros [= <- <-]. left. eexists. repeat split; try done. by left. }
  apply Z.ltb_ge in Hexceeds. unfold ret at 1.
  rewrite bind_run.
  match goal with |- context [?m s0] =>
    match m with (if _ then _ else _) =>
      assert (HD : (exists e, m s0 = (inl e, s0)) \/
                (exists w, m s0 = (inr tt, {| committed := w; working := w |})
                   /\ sales w = sales d /\ product_variants w = product_variants d
                   /\ sale_items w = sale_items d /\ transactions w = transactions d
                   /\ (SaleCreate.paid_amount sd < total ->
                        truthy (SaleCreate.client_id sd) = true)
                   /\ ((SaleCreate.paid_amount sd = total
                        /\ clients w = clients d)
                       \/ (SaleCreate.paid_amount sd < total
                           /\ exists c, SaleCreate.client_id sd = Some c
                                /\ clients w
                                   = alter (indebted
                                              (total - SaleCreate.paid_amount sd))
                                       c (clients d)))))
    end
  end.
  { destruct (SaleCreate.paid_amount sd <? total) eqn:Hdebt.
    - apply Z.ltb_lt in Hdebt. destruct client as [c|].
      + destruct (HA1 c eq_refl) as [Ht Hc].
        right. eexists. split; [reflexivity|]. simpl.
        split; [done|]. split; [done|]. split; [done|]. split; [done|].
        split; [done|]. right. split; [done|]. by exists c.
      + left. by eexists.
    - right. exists d. apply Z.ltb_ge in Hdebt.
      split; [done|]. split; [done|]. split; [done|]. split; [done|].
      split; [done|]. split; [lia|]. left. split; [lia|done]. }
  destruct HD as [(e & ->)|(w & -> & Hw1 & Hw2 & Hw3 & Hw4 & Hw5 & Hw6)].
  { intros [= <- <-]. left. eexists. repeat split; try done. by left. }
  assert (Hfail : forall constraint,
            sales w = sales d /\ product_variants w = product_variants d
            /\ sale_items w = sale_items d /\ transactions w = transactions d
            /\ (clients w = clients d
                \/ exists c constraint',
                     IntegrityError constraint = IntegrityError constraint'
                     /\ SaleCreate.client_id sd = Some c
                     /\ SaleCreate.paid_amount sd < total
                     /\ clients w
                        = alter (indebted (total - SaleCreate.paid_amount sd))
                            c (clients d))).
  { intros constraint. split; [done|]. split; [done|]. split; [done|].
    split; [done|]. destruct Hw6 as [[_ Hsame]|(Hlt & c & Hc & Halter)].
    - by left.
    - right. by exists c, constraint. }
  rewrite bind_run. unfold add_sale_flush at 1. rewrite bind_run.
  unfold get_working at 1. cbn [working].
  destruct (receipt_taken _ w).
  { intros [= <- <-]. left. eexists. split; [done|]. apply Hfail. }
  destruct (negb _).
  { intros [= <- <-]. left. eexists. split; [done|]. apply Hfail. }
  clear Hfail.
  unfold bind at 1, put_working at 1, ret at 1. cbn [working committed].
  set (k := next_key (map fst (map_to_list (sales w)))).
  rewrite bind_run.
  match goal with |- context [for_each _ (persist_item k) tt ?s1] =>
    destruct (persist_items_spec k (SaleCreate.items sd) s1)
      as (w' & rows & -> & Hc & Hsales & Htx & Hrows & Hcols & Hstock) end.
  cbn [working committed] in *. simpl in Hc, Hsales, Htx, Hrows, Hstock.
  rewrite bind_run.
  match goal with |- context [?m {| committed := w; working := w' |}] =>
    match m with (if _ then _ else _) =>
      assert (HT : exists w'', m {| committed := w; working := w' |}
                     = (inr tt, {| committed := w; working := w'' |})
                   /\ sales w'' = sales w'
                   /\ product_variants w'' = product_variants w'
                   /\ sale_items w'' = sale_items w'
                   /\ clients w'' = clients w'
                   /\ transactions w''
                      = transactions w'
                        ++ (if 0 <? SaleCreate.paid_amount sd
                            then [sale_entry env w' sd u k] else []))
    end
  end.
  { destruct (0 <? SaleCreate.paid_amount sd).
    - rewrite bind_run. cbn. eexists. split; [reflexivity|]. simpl.
      split; [done|]. split; [done|]. split; [done|]. split; [done|].
      unfold sale_entry. by rewrite optional_int_of_optional.
    - exists w'. rewrite app_nil_r. done. }
  destruct HT as (w'' & -> & Hs'' & Hv'' & Hi'' & Hc'' & Ht'').
  unfold bind, commit, ret. cbn [working committed].
  intros [= <- <-]. right. exists k. split; [done|].
  split; [done|]. split; [done|]. split; [done|].
  split; [by unfold k; rewrite Hw1|].
  split; [by rewrite Hs'', Hsales, Hw1|].
  split; [intros v; by rewrite Hv'', Hstock, Hw2|].
  split; [exists rows; split; [|done]; by rewrite Hi'', Hrows, Hw3|].
  split.
  { rewrite Ht''. unfold sale_entry. by rewrite Htx, Hw4. }
  by rewrite Hc'', Hc.
Qed.


(** ** The outcomes of [pay_debt], [cancel_sale] and [process_debt_payment] *)

Lemma pay_debt_not_found env d sale_id payment_amount u :
  sales d !! sale_id = None ->
  serve (pay_debt env sale_id payment_amount u) d
  = (inl (HTTPException 404 [Lit "Sale not found"]), d).
Proof.
  intros H. unfold serve, pay_debt. rewrite bind_run. unfold get_sale.
  cbn [working]. rewrite H. reflexivity.
Qed.

Lemma pay_debt_found env d sale_id payment_amount u sale :
  sales d !! sale_id = Some sale ->
  serve (pay_debt env sale_id payment_amount u) d =
  if decide (Sale.status sale = CANCELLED) then
    (inl (HTTPException 400 [Lit "Cannot pay debt for cancelled sale"]), d)
  else if decide (Sale.status sale = COMPLETED) then
    (inl (HTTPException 400 [Lit "Sale is already fully paid"]), d)
  else if Sale.total_amount sale - Sale.paid_amount sale <? payment_amount then
    (inl (HTTPException 400
            [Lit "Payment amount exceeds remaining debt. Remaining debt: ";
             FDec (Sale.total_amount sale - Sale.paid_amount sale)]), d)
  else (inr sale_id, paid_db env d sale_id sale payment_amount u).
Proof.
  intros H. unfold serve, pay_debt. rewrite bind_run. unfold get_sale.
  cbn [working]. rewrite H.
  destruct (decide (Sale.status sale = CANCELLED)); [reflexivity|].
  destruct (decide (Sale.status sale = COMPLETED)); [reflexivity|].
  destruct (_ <? _); [reflexivity|].
  cbn. unfold paid_db, with_transactions, with_sales. cbn.
  rewrite (alter_twice_insert _ _ _ _ sale H), optional_int_of_optional.
  reflexivity.
Qed.

Lemma cancel_sale_found env d sale_id sale :
  sales d !! sale_id = Some sale ->
  serve (cancel_sale env sale_id) d =
  if decide (Sale.status sale = CANCELLED) then
    (inl (HTTPException 400 [Lit "Sale is already cancelled"]), d)
  else (inl (TypeError "type" "Transaction"), d).
Proof.
  intros H. unfold serve, cancel_sale. rewrite bind_run. unfold get_sale.
  cbn [working]. rewrite H.
  destruct (decide (Sale.status sale = CANCELLED)); [reflexivity|].
  rewrite bind_run. unfold get_working at 1. cbn [working].
  rewrite bind_run.
  match goal with |- context [for_each ?l _ tt ?s1] =>
    destruct (restore_items_spec l s1) as (w & -> & _) end.
  reflexivity.
Qed.

Lemma cancel_sale_not_found env d sale_id :
  sales d !! sale_id = None ->
  serve (cancel_sale env sale_id) d = (inr None, d).
Proof.
  intros H. unfold serve, cancel_sale. rewrite bind_run. unfold get_sale.
  cbn [working]. rewrite H. reflexivity.
Qed.

Lemma cancel_sale_store env d sale_id :
  snd (serve (cancel_sale env sale_id) d) = d.
Proof.
  destruct (sales d !! sale_id) as [sale|] eqn:H.
  - rewrite (cancel_sale_found _ _ _ _ H). by destruct (decide _).
  - by rewrite cancel_sale_not_found.
Qed.

(** Were the refund entry of [cancel_sale] built all the same, its INSERT
    would fail: the entry has no [user_id]. *)
Lemma refund_entry_not_insertable env sale_id total_amount receipt client_id s :
  add_transaction env
    [("type", PType REFUND);
     ("amount", PDec (- total_amount));
     ("description", PText [Lit "Refund for cancelled sale "; FStr receipt]);
     ("sale_id", PInt sale_id);
     ("client_id", of_optional client_id);
     ("reference_number", PText [Lit "REF-"; FStr receipt])] s
  = (inl (IntegrityError "transactions.user_id"), s).
Proof. reflexivity. Qed.

Lemma process_debt_payment_found env d pd u client :
  clients d !! DebtPaymentRequest.client_id pd = Some client ->
  serve (process_debt_payment env pd u) d =
  if Client.debt_amount client <? DebtPaymentRequest.payment_amount pd then
    (inl (HTTPException 400 [Lit "Payment amount exceeds debt amount"]), d)
  else
    (inr (DebtPaymentRequest.client_id pd,
          DebtPaymentRequest.payment_amount pd,
          Client.debt_amount client - DebtPaymentRequest.payment_amount pd),
     with_transactions
       (with_clients d
          (<[DebtPaymentRequest.client_id pd :=
               Client.with_debt_amount client
                 (Client.debt_amount client
                  - DebtPaymentRequest.payment_amount pd)]> (clients d)))
       (transactions d ++
          [ {| Transaction.id := next_key (map Transaction.id (transactions d));
               Transaction.user_id := User.id u;
               Transaction.amount := DebtPaymentRequest.payment_amount pd;
               Transaction.description :=
                 Some [Lit "Debt payment of ";
                       FDec (DebtPaymentRequest.payment_amount pd)];
               Transaction.transaction_type := DEBT_PAYMENT;
               Transaction.sale_id := None;
               Transaction.client_id := Some (DebtPaymentRequest.client_id pd);
               Transaction.created_at := utcnow env |} ])).
Proof.
  intros H. unfold serve, process_debt_payment. rewrite bind_run.
  unfold query_client. cbn [working]. rewrite H.
  destruct (_ <? _); [reflexivity|].
  cbn. unfold with_transactions, with_clients. cbn.
  by rewrite (alter_insert_found _ _ _ client H).
Qed.

Lemma process_debt_payment_not_found env d pd u :
  clients d !! DebtPaymentRequest.client_id pd = None ->
  serve (process_debt_payment env pd u) d
  = (inl (HTTPException 404 [Lit "Client not found"]), d).
Proof.
  intros H. unfold serve, process_debt_payment. rewrite bind_run.
  unfold query_client. cbn [working]. by rewrite H.
Qed.

(** ** The replay of the ledger *)

#[local] Instance created_desc_total : Total created_desc.
Proof. intros a b. unfold created_desc. lia. Qed.

#[local] Instance created_desc_trans : Transitive created_desc.
Proof. intros a b c. unfold created_desc. lia. Qed.

Lemma balance_after_app ts1 ts2 :
  balance_after (ts1 ++ ts2) = balance_after ts1 + balance_after ts2.
Proof.
  induction ts1 as [|t ts1 IH]; simpl; [done|].
  unfold balance_after in *. simpl. rewrite IH. lia.
Qed.

Lemma replay_eq h b t :
  replay (h, b) t = (h ++ [entry_of t (b + signed_amount t)], b + signed_amount t).
Proof.
  unfold replay, signed_amount, entry_of.
  destruct (Transaction.transaction_type t); simpl;
    repeat f_equal; lia.
Qed.

Lemma replay_all ts :
  exists h, fold_left replay ts ([], 0) = (h, balance_after ts)
    /\ length h = length ts
    /\ forall (i : nat) t, ts !! i = Some t ->
         h !! i = Some (entry_of t (balance_after (take (S i) ts))).
Proof.
  induction ts as [|t ts IH] using rev_ind.
  - exists []. simpl. split; [done|]. split; [done|]. intros i t. by rewrite lookup_nil.
  - destruct IH as (h & Hfold & Hlen & Hlook).
    rewrite fold_left_app, Hfold. cbn [fold_left]. rewrite replay_eq.
    eexists. split.
    { rewrite balance_after_app. unfold balance_after at 3. simpl.
      rewrite Z.add_0_r. reflexivity. }
    split. { rewrite !length_app, Hlen. done. }
    intros i t' Hi.
    destruct (decide (i < length ts)%nat) as [Hlt|Hge].
    + rewrite lookup_app_l in Hi by done.
      rewrite lookup_app_l by lia.
      rewrite take_app_le by lia. by apply Hlook.
    + assert (i = length ts) as ->.
      { apply lookup_lt_Some in Hi. rewrite length_app in Hi. simpl in Hi. lia. }
      rewrite list_lookup_middle in Hi by done. injection Hi as <-.
      rewrite list_lookup_middle by done.
      rewrite take_ge by (rewrite length_app; simpl; lia).
      rewrite balance_after_app. unfold balance_after at 2. simpl.
      by rewrite Z.add_0_r.
Qed.

Lemma debt_history_found d client_id client :
  clients d !! client_id = Some client ->
  serve (get_client_debt_history client_id) d =
  (inr (fst (fold_left replay
               (order_by_created_at_desc (transactions_of client_id d))
               ([], 0))), d).
Proof.
  intros H. unfold serve, get_client_debt_history. rewrite bind_run.
  unfold query_client. cbn [working]. rewrite H. reflexivity.
Qed.

(** ** Requests in sequence *)

Lemma next_key_above (keys : list Z) k : k ∈ keys -> k < next_key keys.
Proof.
  unfold next_key. induction keys as [|x keys IH]; intros Hin.
  - by apply elem_of_nil in Hin.
  - apply elem_of_cons in Hin as [->|Hin]; simpl; [lia|].
    specialize (IH Hin). lia.
Qed.

Lemma next_key_fresh {A} (m : gmap Z A) :
  m !! next_key (map fst (map_to_list m)) = None.
Proof.
  destruct (m !! next_key (map fst (map_to_list m))) as [x|] eqn:Hx; [|done].
  apply elem_of_map_to_list in Hx.
  assert (Hin : next_key (map fst (map_to_list m)) ∈ map fst (map_to_list m)).
  { apply list_elem_of_In, in_map_iff. eexists. split; [|by apply list_elem_of_In].
    done. }
  apply next_key_above in Hin. lia.
Qed.

(** What a request does to the table of sales. *)
Lemma step_sales d o :
  sales (step d o) = sales d
  \/ (exists env sd u k,
        o = CreateSale env sd u
        /\ sales d !! k = None
        /\ SaleCreate.paid_amount sd <= request_total (SaleCreate.items sd)
        /\ sales (step d o) = <[k := new_sale env sd u]> (sales d))
  \/ (exists env sale_id payment_amount u sale,
        o = PayDebt env sale_id payment_amount u
        /\ sales d !! sale_id = Some sale
        /\ Sale.status sale <> CANCELLED
        /\ Sale.status sale <> COMPLETED
        /\ payment_amount <= Sale.total_amount sale - Sale.paid_amount sale
        /\ sales (step d o) = <[sale_id := paid_sale sale payment_amount]> (sales d)).
Proof.
  destruct o as [env sd u|env sale_id payment_amount u|env sale_id]; simpl.
  - destruct (serve (create_sale env sd u) d) as [r d'] eqn:Hserve.
    apply create_sale_cases in Hserve
      as [(e & _ & Hs & _)|(k & _ & Hle & _ & _ & -> & Hs & _)]; simpl.
    + by left.
    + right; left. exists env, sd, u. eexists. split; [done|].
      split; [apply next_key_fresh|]. done.
  - destruct (sales d !! sale_id) as [sale|] eqn:Hsale.
    + rewrite (pay_debt_found _ _ _ _ _ _ Hsale).
      destruct (decide (Sale.status sale = CANCELLED)); [by left|].
      destruct (decide (Sale.status sale = COMPLETED)); [by left|].
      destruct (_ <? _) eqn:Hex; [by left|].
      right; right. exists env, sale_id, payment_amount, u, sale.
      apply Z.ltb_ge in Hex. done.
    + rewrite pay_debt_not_found by done. by left.
  - rewrite cancel_sale_store. by left.
Qed.


(** * The claims *)

(** ** Sale creation *)



(** C1 (atomicity of [create_sale]).  The code commits the client's debt
    increment before it inserts the sale.  Here the receipt number drawn
    for a second sale collides with the one of the sale already stored:
    the request fails at the flush of the [Sale] row, no sale is persisted
    and no stock changes, yet the client's [debt_amount] has gone from
    1500.00 to 2500.00. *)
Theorem create_sale_debt_committed_before_sale :
  let d' := snd (serve (create_sale today (order (Some 1) 0 [line 7 1 100000])
                          cashier) shop_after_sale) in
  fst (serve (create_sale today (order (Some 1) 0 [line 7 1 100000]) cashier)
         shop_after_sale)
  = inl (IntegrityError "sales.receipt_number")
  /\ sales d' = sales shop_after_sale
  /\ sale_items d' = sale_items shop_after_sale
  /\ product_variants d' = product_variants shop_after_sale
  /\ transactions d' = transactions shop_after_sale
  /\ Client.debt_amount <$> clients shop_after_sale !! 1 = Some 150000
  /\ Client.debt_amount <$> clients d' !! 1 = Some 250000.
Proof. vm_compute. repeat split; reflexivity. Qed.

(** C2 (stock never negative).  Each item is checked against the stock as
    it was loaded, and the decrements come after all the checks: two items
    of 3 pieces of the same variant pass on a stock of 5, the sale
    succeeds and leaves the stock at -1. *)
Theorem create_sale_repeated_variant_oversells :
  let request := order None 600000 [line 7 3 100000; line 7 3 100000] in
  let d' := snd (serve (create_sale today request cashier) shop) in
  fst (serve (create_sale today request cashier) shop) = inr 1
  /\ ProductVariant.stock_quantity <$> product_variants shop !! 7 = Some 5
  /\ ProductVariant.stock_quantity <$> product_variants d' !! 7 = Some (-1).
Proof. vm_compute. repeat split; reflexivity. Qed.

(** What does hold of the stock: a successful sale takes from every
    variant the pieces that its items ask for, summed over the items. *)
Lemma create_sale_stock env sd u d k d' :
  serve (create_sale env sd u) d = (inr k, d') ->
  forall v, product_variants d' !! v
            = taken (requested v (SaleCreate.items sd)) <$> product_variants d !! v.
Proof.
  intros Hserve.
  by apply create_sale_cases in Hserve
    as [(e & [=] & _)|(k' & _ & _ & _ & _ & _ & _ & Hstock & _)].
Qed.

Lemma requested_absent v items :
  v ∉ map SaleItemCreate.product_variant_id items -> requested v items = 0.
Proof.
  induction items as [|it items IH]; intros Hv; [done|].
  cbn [requested fold_right map] in *. apply not_elem_of_cons in Hv as [Hne Hv].
  destruct (Z.eqb_spec (SaleItemCreate.product_variant_id it) v); [congruence|].
  fold (requested v items). rewrite IH by done. lia.
Qed.

Lemma requested_within_stock d items v pv :
  NoDup (map SaleItemCreate.product_variant_id items) ->
  forallb (item_ok d) items = true ->
  product_variants d !! v = Some pv ->
  0 <= ProductVariant.stock_quantity pv ->
  requested v items <= ProductVariant.stock_quantity pv.
Proof.
  intros Hnd Hok Hpv Hstock. induction items as [|it items IH]; [done|].
  cbn [map] in Hnd. apply NoDup_cons in Hnd as [Hnotin Hnd].
  cbn [forallb] in Hok. apply andb_true_iff in Hok as [Hit Hok].
  cbn [requested fold_right]. fold (requested v items).
  destruct (Z.eqb_spec (SaleItemCreate.product_variant_id it) v) as [Heq|Hne].
  - subst v. rewrite requested_absent by done.
    unfold item_ok in Hit. rewrite Hpv in Hit. apply Z.leb_le in Hit. lia.
  - specialize (IH Hnd Hok). lia.
Qed.

(** X22.  So a sale whose items name pairwise different variants keeps
    every stock at 0 or above. *)
Lemma create_sale_distinct_variants_stock env sd u d k d' :
  NoDup (map SaleItemCreate.product_variant_id (SaleCreate.items sd)) ->
  serve (create_sale env sd u) d = (inr k, d') ->
  map_Forall (fun _ pv => 0 <= ProductVariant.stock_quantity pv)
             (product_variants d) ->
  map_Forall (fun _ pv => 0 <= ProductVariant.stock_quantity pv)
             (product_variants d').
Proof.
  intros Hnd Hserve Hd v pv' Hv.
  apply create_sale_cases in Hserve
    as [(e & [=] & _)|(k' & _ & _ & _ & Hok & _ & _ & Hstock & _)].
  rewrite Hstock in Hv.
  destruct (product_variants d !! v) as [pv|] eqn:Hpv; [|done].
  injection Hv as <-. simpl.
  pose proof (requested_within_stock d _ v pv Hnd Hok Hpv (Hd v pv Hpv)). lia.
Qed.




(** C10, as amended (walk-in sale with an unpaid part).  For a request
    without client ([client_id] absent, or 0) whose items all pass the
    validation and whose paid amount is below the total, [create_sale]
    reaches the debt increment with [client] unbound: it raises
    [UnboundLocalError] and leaves the store as it was.  And whenever a
    request without client succeeds, its paid amount equals its total. *)
Theorem walk_in_with_debt_unbound_client env sd u d :
  truthy (SaleCreate.client_id sd) = false ->
  (forallb (item_ok d) (SaleCreate.items sd) = true ->
   SaleCreate.paid_amount sd < request_total (SaleCreate.items sd) ->
   serve (create_sale env sd u) d = (inl (UnboundLocalError "client"), d))
  /\ (forall k d', serve (create_sale env sd u) d = (inr k, d') ->
        SaleCreate.paid_amount sd = request_total (SaleCreate.items sd)).
Proof.
  intros Hwalk. split.
  - intros Hitems Hlt. unfold serve, create_sale. rewrite bind_run, Hwalk.
    unfold ret at 1. rewrite bind_run.
    set (s0 := {| committed := d; working := d |}).
    destruct (check_items_spec (SaleCreate.items sd) (0, []) s0) as [Hs Hr].
    destruct (for_each (SaleCreate.items sd) check_item (0, []) s0)
      as [[e|[total_amount infos]] s1]; simpl in Hs, Hr; subst s1.
    { destruct Hr as [_ Hr]. congruence. }
    destruct Hr as (-> & -> & _). rewrite !Z.add_0_l. rewrite bind_run.
    destruct (Z.ltb_spec (request_total (SaleCreate.items sd))
                (SaleCreate.paid_amount sd)); [lia|].
    unfold ret at 1. rewrite bind_run.
    destruct (Z.ltb_spec (SaleCreate.paid_amount sd)
                (request_total (SaleCreate.items sd))); [|lia].
    reflexivity.
  - intros k d' Hserve.
    apply create_sale_cases in Hserve
      as [(e & [=] & _)|(k' & _ & Hle & Hclient & _)].
    destruct (Z.lt_ge_cases (SaleCreate.paid_amount sd)
                (request_total (SaleCreate.items sd))) as [Hlt|Hge]; [|lia].
    apply Hclient in Hlt. congruence.
Qed.

(** The walk-in customer who pays 1000.00 of 3500.00. *)
Lemma walk_in_with_debt_scenario :
  serve (create_sale today (order None 100000 [line 7 3 100000; line 8 1 50000])
           cashier) shop
  = (inl (UnboundLocalError "client"), shop).
Proof.
  apply (walk_in_with_debt_unbound_client today
           (order None 100000 [line 7 3 100000; line 8 1 50000]) cashier shop).
  - reflexivity.
  - reflexivity.
  - vm_compute. reflexivity.
Defined.

(** C10 as stated fails on a walk-in request whose item names a variant
    that does not exist: with nothing paid of a total of 1000.00 the
    request ends with the error of the missing variant. *)
Lemma walk_in_missing_variant_not_found :
  SaleCreate.paid_amount (order None 0 [line 99 1 100000])
  < request_total (SaleCreate.items (order None 0 [line 99 1 100000]))
  /\ serve (create_sale today (order None 0 [line 99 1 100000]) cashier) shop
     = (inl (HTTPException 400
               [Lit "Product variant with ID "; FInt 99; Lit " not found"]),
        shop).
Proof. split; [vm_compute; reflexivity|]. vm_compute. reflexivity. Qed.

(** ** Cancellation *)

(** C4 (cancellation of a sale that is not cancelled).  [cancel_sale]
    builds the refund entry with the keywords [type] and
    [reference_number], which [Transaction] does not have: the constructor
    raises [TypeError] before the commit, so the request fails and the
    store keeps the status, the stock and the ledger it had. *)
Theorem cancel_sale_raises_before_commit env d sale_id sale :
  sales d !! sale_id = Some sale ->
  Sale.status sale <> CANCELLED ->
  serve (cancel_sale env sale_id) d = (inl (TypeError "type" "Transaction"), d).
Proof.
  intros Hsale Hstatus. rewrite (cancel_sale_found _ _ _ _ Hsale).
  by destruct (decide (Sale.status sale = CANCELLED)).
Qed.

(** The scenario of C4: a completed sale with one item of 4 pieces. *)
Lemma cancel_sale_completed_scenario :
  serve (cancel_sale later 1) shop_with_completed_sale
  = (inl (TypeError "type" "Transaction"), shop_with_completed_sale).
Proof.
  eapply (cancel_sale_raises_before_commit later shop_with_completed_sale 1).
  - vm_compute. reflexivity.
  - simpl. discriminate.
Defined.

(** ** Payment of a sale's debt *)



(** ** The client's aggregate debt *)

(** C9 (frame of [debt_amount]).  Whatever its outcome, a [pay_debt] or a
    [cancel_sale] request leaves the table of clients as it was.  The
    client-level [process_debt_payment] is the request that lowers
    [debt_amount], by the payment, and its ledger entry names the client
    and no sale. *)
Theorem debt_amount_frame env d :
  (forall sale_id payment_amount u,
     clients (snd (serve (pay_debt env sale_id payment_amount u) d)) = clients d)
  /\ (forall sale_id,
        clients (snd (serve (cancel_sale env sale_id) d)) = clients d)
  /\ (forall pd u data d',
        serve (process_debt_payment env pd u) d = (inr data, d') ->
        exists client t,
          clients d !! DebtPaymentRequest.client_id pd = Some client
          /\ clients d'
             = <[DebtPaymentRequest.client_id pd :=
                   Client.with_debt_amount client
                     (Client.debt_amount client
                      - DebtPaymentRequest.payment_amount pd)]> (clients d)
          /\ transactions d' = transactions d ++ [t]
          /\ Transaction.transaction_type t = DEBT_PAYMENT
          /\ Transaction.amount t = DebtPaymentRequest.payment_amount pd
          /\ Transaction.client_id t = Some (DebtPaymentRequest.client_id pd)
          /\ Transaction.sale_id t = None).
Proof.
  split; [|split].
  - intros sale_id payment_amount u.
    destruct (sales d !! sale_id) as [sale|] eqn:Hsale.
    + rewrite (pay_debt_found _ _ _ _ _ _ Hsale).
      destruct (decide _); [done|]. destruct (decide _); [done|].
      by destruct (_ <? _).
    + by rewrite pay_debt_not_found.
  - intros sale_id. by rewrite cancel_sale_store.
  - intros pd u data d' Hserve.
    destruct (clients d !! DebtPaymentRequest.client_id pd) as [client|] eqn:Hc.
    + rewrite (process_debt_payment_found _ _ _ _ _ Hc) in Hserve.
      destruct (_ <? _); [done|]. injection Hserve as _ <-.
      exists client. eexists. split; [done|]. split; [done|].
      split; [reflexivity|]. done.
    + by rewrite process_debt_payment_not_found in Hserve.
Qed.

(** The client who owes 1500.00 after the sale: paying the sale, or trying
    to cancel it, leaves the 1500.00; [process_debt_payment] of 500.00
    leaves 1000.00. *)
Lemma debt_amount_frame_scenario :
  Client.debt_amount <$> clients shop_after_sale !! 1 = Some 150000
  /\ Client.debt_amount
       <$> clients (snd (serve (pay_debt later 1 150000 cashier)
                           shop_after_sale)) !! 1 = Some 150000
  /\ Client.debt_amount
       <$> clients (snd (serve (cancel_sale later 1) shop_after_sale)) !! 1
     = Some 150000
  /\ Client.debt_amount
       <$> clients (snd (serve (process_debt_payment later
                                  {| DebtPaymentRequest.client_id := 1;
                                     DebtPaymentRequest.payment_amount := 50000 |}
                                  cashier) shop_after_sale)) !! 1
     = Some 100000.
Proof.
  destruct (debt_amount_frame later shop_after_sale) as (Hpay & Hcancel & Hclient).
  rewrite Hpay, Hcancel. split; [vm_compute; reflexivity|].
  split; [vm_compute; reflexivity|]. split; [vm_compute; reflexivity|].
  specialize (Hclient {| DebtPaymentRequest.client_id := 1;
                         DebtPaymentRequest.payment_amount := 50000 |} cashier).
  destruct (serve (process_debt_payment later _ cashier) shop_after_sale)
    as [[e|data] d'] eqn:Hserve.
  - vm_compute in Hserve. discriminate.
  - cbn [snd].
    destruct (Hclient data d' eq_refl) as (client & t & Hc & -> & _).
    cbn [DebtPaymentRequest.client_id DebtPaymentRequest.payment_amount] in *.
    rewrite lookup_insert_eq.
    assert (H : clients shop_after_sale !! 1
                = Some {| Client.debt_amount := 150000 |})
      by (vm_compute; reflexivity).
    rewrite H in Hc. injection Hc as <-. reflexivity.
Defined.

(** ** The client debt history *)

(** C3, as amended (debt history).  For an existing client the handler
    returns one element per ledger entry of the client, the entries being
    taken newest first (by [created_at], descending); the element of an
    entry carries its [id], [type], [amount] and [created_at], and as
    [balance] the running balance of the entries returned so far, which
    starts at 0, grows by the amount at a [sale] entry and shrinks by it at
    a [debt_payment] entry. *)
Theorem debt_history_newest_first d client_id client :
  clients d !! client_id = Some client ->
  exists ts h,
    serve (get_client_debt_history client_id) d = (inr h, d)
    /\ ts ≡ₚ transactions_of client_id d
    /\ StronglySorted created_desc ts
    /\ length h = length ts
    /\ forall (i : nat) t, ts !! i = Some t ->
         h !! i = Some (entry_of t (balance_after (take (S i) ts))).
Proof.
  intros Hclient. rewrite (debt_history_found _ _ _ Hclient).
  exists (order_by_created_at_desc (transactions_of client_id d)).
  destruct (replay_all (order_by_created_at_desc (transactions_of client_id d)))
    as (h & Hfold & Hlen & Hlook).
  exists h. rewrite Hfold. split; [done|].
  split; [apply merge_sort_Permutation|].
  split; [apply (StronglySorted_merge_sort _)|]. done.
Qed.

(** The ledger with a sale entry at time 100 and a payment at time 200:
    the payment comes first, with the balance -200.00, then the sale, with
    the balance 300.00. *)
Lemma debt_history_scenario :
  fst (serve (get_client_debt_history 1) shop_with_ledger)
  = inr [ {| entry_id := 2; entry_type := "debt_payment";
             entry_amount := 20000; entry_balance := -20000;
             entry_created_at := 200 |};
          {| entry_id := 1; entry_type := "sale";
             entry_amount := 50000; entry_balance := 30000;
             entry_created_at := 100 |} ].
Proof.
  destruct (debt_history_newest_first shop_with_ledger 1
              {| Client.debt_amount := 0 |} eq_refl)
    as (ts & h & Hserve & _).
  rewrite Hserve in *. vm_compute in Hserve. injection Hserve as <-.
  reflexivity.
Defined.

(** C3 as stated fails on that ledger: the elements are not in ascending
    order of creation time. *)
Lemma debt_history_not_ascending :
  exists h,
    fst (serve (get_client_debt_history 1) shop_with_ledger) = inr h
    /\ map entry_created_at h = [200; 100]
    /\ ~ Sorted Z.le (map entry_created_at h).
Proof.
  eexists. split; [vm_compute; reflexivity|]. split; [reflexivity|].
  intros Hsorted. simpl in Hsorted. inversion Hsorted as [|? ? _ Hhd].
  inversion Hhd as [|? ? Hle]. lia.
Qed.

(** ** Invariants of the sales over sequences of requests *)

(** A property of the stored sales that new sales have and accepted
    payments keep is kept by every request. *)
Lemma step_preserves (P : Sale.t -> Prop) d o :
  (forall env sd u,
     o = CreateSale env sd u ->
     SaleCreate.paid_amount sd <= request_total (SaleCreate.items sd) ->
     P (new_sale env sd u)) ->
  (forall env sale_id payment_amount u sale,
     o = PayDebt env sale_id payment_amount u ->
     P sale ->
     Sale.status sale <> CANCELLED -> Sale.status sale <> COMPLETED ->
     payment_amount <= Sale.total_amount sale - Sale.paid_amount sale ->
     P (paid_sale sale payment_amount)) ->
  map_Forall (fun _ => P) (sales d) ->
  map_Forall (fun _ => P) (sales (step d o)).
Proof.
  intros Hnew Hpaid Hd.
  destruct (step_sales d o)
    as [->|[(env & sd & u & k & -> & _ & Hle & ->)
           |(env & sale_id & payment_amount & u & sale & -> & Hsale & H1 & H2
             & Hle & ->)]].
  - done.
  - apply map_Forall_insert_2; [|done]. by apply (Hnew env sd u).
  - apply map_Forall_insert_2; [|done].
    apply (Hpaid env sale_id payment_amount u sale); try done.
    by apply (Hd sale_id).
Qed.

Lemma run_preserves (P : Sale.t -> Prop) (Q : Op -> bool) :
  (forall env sd u,
     Q (CreateSale env sd u) = true ->
     SaleCreate.paid_amount sd <= request_total (SaleCreate.items sd) ->
     P (new_sale env sd u)) ->
  (forall env sale_id payment_amount u sale,
     Q (PayDebt env sale_id payment_amount u) = true ->
     P sale ->
     Sale.status sale <> CANCELLED -> Sale.status sale <> COMPLETED ->
     payment_amount <= Sale.total_amount sale - Sale.paid_amount sale ->
     P (paid_sale sale payment_amount)) ->
  forall ops d,
    forallb Q ops = true ->
    map_Forall (fun _ => P) (sales d) ->
    map_Forall (fun _ => P) (sales (run d ops)).
Proof.
  intros Hnew Hpaid ops. induction ops as [|o ops IH]; intros d HQ Hd; [done|].
  cbn [forallb] in HQ. apply andb_true_iff in HQ as [HQo HQ].
  change (run d (o :: ops)) with (run (step d o) ops).
  apply IH; [done|]. apply step_preserves; [| |done].
  - intros env sd u ->. by apply Hnew.
  - intros env sale_id payment_amount u sale ->.
    by apply (Hpaid env sale_id payment_amount u sale).
Qed.

(** A request that brings no negative amount lowers no paid amount. *)
Lemma step_monotone d o k s :
  nonneg_op o = true ->
  sales d !! k = Some s ->
  exists s', sales (step d o) !! k = Some s'
             /\ Sale.paid_amount s <= Sale.paid_amount s'.
Proof.
  intros Hnn Hs.
  destruct (step_sales d o)
    as [->|[(env & sd & u & k' & -> & Hfresh & _ & ->)
           |(env & sale_id & payment_amount & u & sale & -> & Hsale & _ & _
             & _ & ->)]].
  - exists s. split; [done|lia].
  - exists s. split; [|lia]. rewrite lookup_insert_ne; [done|congruence].
  - destruct (decide (sale_id = k)) as [->|Hne].
    + exists (paid_sale sale payment_amount). rewrite lookup_insert_eq.
      split; [done|]. rewrite Hsale in Hs. injection Hs as <-.
      simpl in Hnn. apply Z.leb_le in Hnn. simpl. lia.
    + exists s. rewrite lookup_insert_ne by done. split; [done|lia].
Qed.

Lemma run_monotone ops : forall d k s,
  forallb nonneg_op ops = true ->
  sales d !! k = Some s ->
  exists s', sales (run d ops) !! k = Some s'
             /\ Sale.paid_amount s <= Sale.paid_amount s'.
Proof.
  induction ops as [|o ops IH]; intros d k s Hnn Hs.
  - exists s. split; [done|lia].
  - cbn [forallb] in Hnn. apply andb_true_iff in Hnn as [Ho Hnn].
    destruct (step_monotone d o k s Ho Hs) as (s1 & Hs1 & Hle1).
    destruct (IH (step d o) k s1 Hnn Hs1) as (s2 & Hs2 & Hle2).
    exists s2. split; [done|lia].
Qed.




(** C8, as amended (bounds of the paid amount).  If the paid amount of
    every stored sale is at most its total, this still holds after any
    sequence of requests.  If moreover no request of the sequence brings a
    negative amount ([paid_amount] of a creation, [payment_amount] of a
    payment), then every sale stored before the sequence is still stored
    after it with a paid amount that is not lower, and paid amounts that
    were not negative before are not negative after. *)
Theorem paid_amount_bounds_run d ops :
  map_Forall (fun _ s => paid_within_total s) (sales d) ->
  map_Forall (fun _ s => paid_within_total s) (sales (run d ops))
  /\ (forallb nonneg_op ops = true ->
      (forall k s, sales d !! k = Some s ->
         exists s', sales (run d ops) !! k = Some s'
                    /\ Sale.paid_amount s <= Sale.paid_amount s')
      /\ (map_Forall (fun _ s => paid_nonneg s) (sales d) ->
          map_Forall (fun _ s => paid_nonneg s) (sales (run d ops)))).
Proof.
  intros Hd. split; [|intros Hnn; split].
  - apply (run_preserves paid_within_total (fun _ => true)); [| | |done].
    + intros env sd u _ Hle. exact Hle.
    + intros env sale_id payment_amount u sale _ _ _ _ Hle.
      unfold paid_within_total, paid_sale. simpl. lia.
    + clear. by induction ops.
  - intros k s Hs. by apply run_monotone.
  - intros Hd0. apply (run_preserves paid_nonneg nonneg_op); [| |done|done].
    + intros env sd u Hq _. simpl in Hq. apply Z.leb_le in Hq. exact Hq.
    + intros env sale_id payment_amount u sale Hq Hs _ _ _.
      simpl in Hq. apply Z.leb_le in Hq.
      unfold paid_nonneg, paid_sale in *. simpl. lia.
Qed.

(** After the sale of the scenario, payments of 500.00 and of 1000.00 and
    a further sale paid in full. *)
Lemma paid_amount_bounds_scenario :
  map_Forall (fun _ s => paid_within_total s)
    (sales (run shop_after_sale
              [PayDebt later 1 50000 cashier;
               CreateSale later (order (Some 1) 100000 [line 7 1 100000]) cashier;
               PayDebt later 1 100000 cashier]))
  /\ map_Forall (fun _ s => paid_nonneg s)
       (sales (run shop_after_sale
                 [PayDebt later 1 50000 cashier;
                  CreateSale later (order (Some 1) 100000 [line 7 1 100000])
                    cashier;
                  PayDebt later 1 100000 cashier])).
Proof.
  destruct (paid_amount_bounds_run shop_after_sale
              [PayDebt later 1 50000 cashier;
               CreateSale later (order (Some 1) 100000 [line 7 1 100000]) cashier;
               PayDebt later 1 100000 cashier])
    as [Hwithin Hnonneg].
  - apply (bool_decide_unpack _). vm_compute. exact I.
  - split; [exact Hwithin|]. apply Hnonneg; [reflexivity|].
    apply (bool_decide_unpack _). vm_compute. exact I.
Defined.

(** C8 as stated fails on negative amounts, which both requests accept: a
    sale created with -50.00 paid is stored with that paid amount, and a
    payment of -100.00 lowers the paid amount of the scenario's sale from
    2000.00 to 1900.00. *)
Lemma negative_paid_amount_accepted :
  (exists s,
     sales (run shop [CreateSale today (order (Some 1) (-5000) [line 7 1 100000])
                        cashier]) !! 1 = Some s
     /\ Sale.paid_amount s = -5000 /\ Sale.paid_amount s < 0)
  /\ Sale.paid_amount <$> sales shop_after_sale !! 1 = Some 200000
  /\ fst (serve (pay_debt later 1 (-10000) cashier) shop_after_sale) = inr 1
  /\ Sale.paid_amount
       <$> sales (run shop_after_sale [PayDebt later 1 (-10000) cashier]) !! 1
     = Some 190000.
Proof.
  split.
  - eexists. split; [vm_compute; reflexivity|]. cbn. split; [done|lia].
  - split; [vm_compute; reflexivity|]. split; vm_compute; reflexivity.
Qed.

(** * Further properties *)

(** ** Pagination *)

Lemma ceiling_bounds total size :
  0 < size ->
  size * ((total + size - 1) / size - 1) < total
  <= size * ((total + size - 1) / size).
Proof.
  intros Hsize.
  pose proof (Z.mul_div_le (total + size - 1) size Hsize).
  pose proof (Z.mul_succ_div_gt (total + size - 1) size Hsize). lia.
Qed.

Lemma pages_upto_take {A} (query : list A) size (n : nat) :
  0 < size ->
  pages_upto query size n = take (n * Z.to_nat size) query.
Proof.
  intros Hsize. unfold pages_upto. induction n as [|n IH]; [done|].
  rewrite seq_S, flat_map_app, IH. cbn [flat_map]. rewrite app_nil_r.
  unfold paginate_query.
  replace (Z.of_nat (1 + n) - 1) with (Z.of_nat n) by lia.
  destruct (Z.ltb_spec (Z.of_nat n * size) 0); [nia|].
  destruct (Z.ltb_spec size 0); [lia|].
  replace (Z.to_nat (Z.of_nat n * size)) with (n * Z.to_nat size)%nat by nia.
  rewrite take_take_drop. f_equal. lia.
Qed.

(** X1.  For a positive page size [calculate_pagination_info] succeeds,
    repeats its arguments, and its [pages] is the least number of pages of
    [size] rows that hold [total] rows; for the size 0 it fails with
    [ZeroDivisionError]. *)
Theorem pagination_pages_ceiling total page size :
  (0 < size ->
   exists info,
     calculate_pagination_info total page size = inr info
     /\ info_page info = page /\ info_size info = size
     /\ info_total info = total
     /\ size * (info_pages info - 1) < total <= size * info_pages info)
  /\ (size = 0 ->
      calculate_pagination_info total page size = inl ZeroDivisionError).
Proof.
  unfold calculate_pagination_info. split.
  - intros Hsize. destruct (Z.eqb_spec size 0); [lia|].
    eexists. split; [reflexivity|]. simpl.
    split; [done|]. split; [done|]. split; [done|].
    by apply ceiling_bounds.
  - by intros ->.
Qed.

(** 25 rows in pages of 10 make 3 pages. *)
Lemma pagination_pages_ceiling_example :
  exists info,
    calculate_pagination_info 25 3 10 = inr info
    /\ info_page info = 3 /\ info_size info = 10
    /\ info_total info = 25
    /\ 10 * (info_pages info - 1) < 25 <= 10 * info_pages info.
Proof.
  destruct (pagination_pages_ceiling 25 3 10) as [Hpositive _].
  apply Hpositive. lia.
Defined.

(** X2.  For a positive page size, the pages 1 to [pages], with [pages]
    as [calculate_pagination_info] gives it for the number of rows, hold
    all the rows of the query, in order and once each. *)
Theorem pagination_pages_cover {A} (query : list A) page size :
  0 < size ->
  exists info,
    calculate_pagination_info (Z.of_nat (length query)) page size = inr info
    /\ pages_upto query size (Z.to_nat (info_pages info)) = query.
Proof.
  intros Hsize. unfold calculate_pagination_info.
  destruct (Z.eqb_spec size 0); [lia|].
  eexists. split; [reflexivity|]. cbn [info_pages].
  rewrite pages_upto_take by done. apply take_ge.
  pose proof (ceiling_bounds (Z.of_nat (length query)) size Hsize). nia.
Qed.

(** Seven rows in pages of 3. *)
Lemma pagination_pages_cover_example :
  exists info,
    calculate_pagination_info (Z.of_nat (length [1; 2; 3; 4; 5; 6; 7])) 1 3
    = inr info
    /\ pages_upto [1; 2; 3; 4; 5; 6; 7] 3 (Z.to_nat (info_pages info))
       = [1; 2; 3; 4; 5; 6; 7].
Proof. apply (pagination_pages_cover [1; 2; 3; 4; 5; 6; 7] 1 3). lia. Defined.

(** X3.  For a page number of at least 1 and a size that is not negative,
    [paginate_query] gives at most [size] rows: the rows of the query at
    the positions [(page - 1) * size] and following; it gives no row when
    the query has no more than [(page - 1) * size] rows. *)
Theorem paginate_query_rows {A} (query : list A) page size :
  1 <= page -> 0 <= size ->
  exists rows,
    paginate_query query page size = inr rows
    /\ Z.of_nat (length rows) <= size
    /\ (forall i : nat,
          Z.of_nat i < size ->
          rows !! i = query !! (Z.to_nat ((page - 1) * size) + i)%nat)
    /\ (forall i : nat, size <= Z.of_nat i -> rows !! i = None)
    /\ (Z.of_nat (length query) <= (page - 1) * size -> rows = []).
Proof.
  intros Hpage Hsize. unfold paginate_query.
  destruct (Z.ltb_spec ((page - 1) * size) 0); [nia|].
  destruct (Z.ltb_spec size 0); [lia|].
  eexists. split; [reflexivity|]. split; [|split; [|split]].
  - rewrite length_take. lia.
  - intros i Hi. rewrite lookup_take_lt by lia. apply lookup_drop.
  - intros i Hi. apply lookup_take_ge. lia.
  - intros Hshort. rewrite drop_ge by lia. by destruct (Z.to_nat size).
Qed.

(** The second page of 3 of seven rows. *)
Lemma paginate_query_rows_example :
  exists rows,
    paginate_query [1; 2; 3; 4; 5; 6; 7] 2 3 = inr rows
    /\ Z.of_nat (length rows) <= 3
    /\ (forall i : nat,
          Z.of_nat i < 3 ->
          rows !! i = [1; 2; 3; 4; 5; 6; 7] !! (Z.to_nat ((2 - 1) * 3) + i)%nat)
    /\ (forall i : nat, 3 <= Z.of_nat i -> rows !! i = None)
    /\ (Z.of_nat (length [1; 2; 3; 4; 5; 6; 7]) <= (2 - 1) * 3 -> rows = []).
Proof. apply (paginate_query_rows [1; 2; 3; 4; 5; 6; 7] 2 3); lia. Defined.

(** ** What a request does to the store *)

Lemma handle_effect d r :
  (sales (handle d r) = sales d
   /\ transactions (handle d r) = transactions d
   /\ product_variants (handle d r) = product_variants d
   /\ sale_items (handle d r) = sale_items d
   /\ (clients (handle d r) = clients d
       \/ exists c unpaid,
            0 < unpaid
            /\ clients (handle d r) = alter (indebted unpaid) c (clients d)))
  \/ (exists env sd u k,
        r = Ledger (CreateSale env sd u)
        /\ sales d !! k = None
        /\ SaleCreate.paid_amount sd <= request_total (SaleCreate.items sd)
        /\ sales (handle d r) = <[k := new_sale env sd u]> (sales d)
        /\ transactions (handle d r)
           = transactions d
             ++ (if 0 <? SaleCreate.paid_amount sd
                 then [sale_entry env d sd u k] else [])
        /\ (clients (handle d r) = clients d
            \/ exists c unpaid,
                 0 < unpaid
                 /\ clients (handle d r) = alter (indebted unpaid) c (clients d)))
  \/ (exists env k payment_amount u sale,
        r = Ledger (PayDebt env k payment_amount u)
        /\ sales d !! k = Some sale
        /\ Sale.status sale <> CANCELLED
        /\ Sale.status sale <> COMPLETED
        /\ payment_amount <= Sale.total_amount sale - Sale.paid_amount sale
        /\ handle d r = paid_db env d k sale payment_amount u)
  \/ (exists env pd u client t,
        r = ClientPayment env pd u
        /\ clients d !! DebtPaymentRequest.client_id pd = Some client
        /\ DebtPaymentRequest.payment_amount pd <= Client.debt_amount client
        /\ Transaction.sale_id t = None
        /\ sales (handle d r) = sales d
        /\ product_variants (handle d r) = product_variants d
        /\ sale_items (handle d r) = sale_items d
        /\ transactions (handle d r) = transactions d ++ [t]
        /\ clients (handle d r)
           = <[DebtPaymentRequest.client_id pd :=
                 Client.with_debt_amount client
                   (Client.debt_amount client
                    - DebtPaymentRequest.payment_amount pd)]> (clients d)).
Proof.
  destruct r as [[env sd u|env k payment_amount u|env k]|env pd u]; simpl.
  - destruct (serve (create_sale env sd u) d) as [r d'] eqn:Hserve.
    apply create_sale_cases in Hserve
      as [(e & _ & Hs & Hv & Hi & Ht & Hc)
         |(k & _ & Hle & _ & _ & -> & Hs & _ & _ & Ht & Hc)]; simpl.
    + left. repeat split; try done.
      destruct Hc as [Hc|(c & constraint & _ & _ & Hlt & Hc)]; [by left|].
      right. eexists c, _. split; [|exact Hc]. lia.
    + right; left. exists env, sd, u. eexists.
      split; [done|]. split; [apply next_key_fresh|]. split; [done|].
      split; [done|]. split; [done|].
      destruct Hc as [[_ Hc]|(Hlt & c & _ & Hc)]; [by left|].
      right. eexists c, _. split; [|exact Hc]. lia.
  - destruct (sales d !! k) as [sale|] eqn:Hsale.
    + rewrite (pay_debt_found _ _ _ _ _ _ Hsale).
      destruct (decide (Sale.status sale = CANCELLED));
        [left; repeat split; try done; by left|].
      destruct (decide (Sale.status sale = COMPLETED));
        [left; repeat split; try done; by left|].
      destruct (Z.ltb_spec (Sale.total_amount sale - Sale.paid_amount sale)
                  payment_amount); [left; repeat split; try done; by left|].
      right; right; left. by exists env, k, payment_amount, u, sale.
    + rewrite pay_debt_not_found by done. left. repeat split; try done. by left.
  - rewrite cancel_sale_store. left. repeat split; try done. by left.
  - destruct (clients d !! DebtPaymentRequest.client_id pd) as [client|] eqn:Hc.
    + rewrite (process_debt_payment_found _ _ _ _ _ Hc).
      destruct (Z.ltb_spec (Client.debt_amount client)
                  (DebtPaymentRequest.payment_amount pd));
        [left; repeat split; try done; by left|].
      right; right; right. exists env, pd, u, client. eexists.
      split; [done|]. split; [done|]. split; [done|].
      split; [|split; [done|]; split; [done|]; split; [done|];
               split; [reflexivity|done]].
      reflexivity.
    + rewrite process_debt_payment_not_found by done.
      left. repeat split; try done. by left.
Qed.

Lemma handle_all_cons d r rs : handle_all d (r :: rs) = handle_all (handle d r) rs.
Proof. reflexivity. Qed.

(** ** The ledger is append-only *)

(** X4.  Whatever the requests and their outcomes, the ledger after them
    is the ledger before them followed by new entries, at most one for
    each request: no entry is changed or removed. *)
Theorem ledger_append_only d rs :
  exists new,
    transactions (handle_all d rs) = transactions d ++ new
    /\ (length new <= length rs)%nat.
Proof.
  revert d. induction rs as [|r rs IH]; intros d.
  - exists []. by rewrite app_nil_r.
  - rewrite handle_all_cons. destruct (IH (handle d r)) as (new & -> & Hlen).
    destruct (handle_effect d r)
      as [(_ & -> & _)
         |[(env & sd & u & k & _ & _ & _ & _ & -> & _)
          |[(env & k & p & u & sale & _ & _ & _ & _ & _ & ->)
           |(env & pd & u & client & t & _ & _ & _ & _ & _ & _ & _ & -> & _)]]].
    + exists new. split; [done|]. simpl. lia.
    + eexists. rewrite <- app_assoc. split; [reflexivity|].
      rewrite length_app. destruct (0 <? _); simpl; lia.
    + eexists. unfold paid_db. simpl. rewrite <- app_assoc.
      split; [reflexivity|]. simpl. lia.
    + eexists. rewrite <- app_assoc. split; [reflexivity|]. simpl. lia.
Qed.

(** ** The terms of a stored sale *)

Lemma same_terms_refl s : same_terms s s.
Proof. by repeat split. Qed.

Lemma same_terms_trans a b c : same_terms a b -> same_terms b c -> same_terms a c.
Proof.
  intros (H1 & H2 & H3 & H4 & H5 & H6) (G1 & G2 & G3 & G4 & G5 & G6).
  repeat split; congruence.
Qed.

Lemma handle_keeps_terms d r k s :
  sales d !! k = Some s ->
  exists s', sales (handle d r) !! k = Some s' /\ same_terms s s'.
Proof.
  intros Hs.
  destruct (handle_effect d r)
    as [(-> & _)
       |[(env & sd & u & k' & _ & Hfresh & _ & -> & _)
        |[(env & k' & p & u & sale & _ & Hsale & _ & _ & _ & ->)
         |(env & pd & u & client & t & _ & _ & _ & _ & -> & _)]]].
  - exists s. split; [done|apply same_terms_refl].
  - exists s. split; [|apply same_terms_refl].
    rewrite lookup_insert_ne; [done|congruence].
  - unfold paid_db. simpl. destruct (decide (k' = k)) as [->|Hne].
    + rewrite lookup_insert_eq. eexists. split; [done|].
      rewrite Hsale in Hs. injection Hs as <-. by repeat split.
    + rewrite lookup_insert_ne by done. exists s.
      split; [done|apply same_terms_refl].
  - exists s. split; [done|apply same_terms_refl].
Qed.

(** X5.  A stored sale stays stored under its [id] through any sequence
    of requests, with the receipt number, client, total amount, payment
    method, notes and user it was created with: later requests change
    its paid amount and status only. *)
Theorem sale_terms_fixed d rs k s :
  sales d !! k = Some s ->
  exists s', sales (handle_all d rs) !! k = Some s' /\ same_terms s s'.
Proof.
  revert d s. induction rs as [|r rs IH]; intros d s Hs.
  - exists s. split; [done|apply same_terms_refl].
  - rewrite handle_all_cons.
    destruct (handle_keeps_terms d r k s Hs) as (s1 & Hs1 & Ht1).
    destruct (IH (handle d r) s1 Hs1) as (s2 & Hs2 & Ht2).
    exists s2. split; [done|]. by eapply same_terms_trans.
Qed.

(** ** The stock and the sale items *)

(** X6.  [pay_debt], [cancel_sale] and [process_debt_payment] leave the
    stock of every variant and the table of sale items as they were,
    whatever their outcome; the stock that [cancel_sale] restores in its
    session is never stored. *)
Theorem stock_changed_by_creation_only env d :
  (forall k payment_amount u,
     product_variants (snd (serve (pay_debt env k payment_amount u) d))
     = product_variants d
     /\ sale_items (snd (serve (pay_debt env k payment_amount u) d))
        = sale_items d)
  /\ (forall k,
        product_variants (snd (serve (cancel_sale env k) d)) = product_variants d
        /\ sale_items (snd (serve (cancel_sale env k) d)) = sale_items d)
  /\ (forall pd u,
        product_variants (snd (serve (process_debt_payment env pd u) d))
        = product_variants d
        /\ sale_items (snd (serve (process_debt_payment env pd u) d))
           = sale_items d).
Proof.
  split; [|split].
  - intros k payment_amount u.
    destruct (handle_effect d (Ledger (PayDebt env k payment_amount u)))
      as [(_ & _ & Hv & Hi & _)
         |[(? & ? & ? & ? & [=] & _)
          |[(? & ? & ? & ? & sale & _ & _ & _ & _ & _ & Hd)
           |(? & ? & ? & ? & ? & [=] & _)]]]; simpl in *.
    + done.
    + by rewrite Hd.
  - intros k. by rewrite cancel_sale_store.
  - intros pd u.
    destruct (handle_effect d (ClientPayment env pd u))
      as [(_ & _ & Hv & Hi & _)
         |[(? & ? & ? & ? & [=] & _)
          |[(? & ? & ? & ? & ? & [=] & _)
           |(? & ? & ? & ? & ? & _ & _ & _ & _ & _ & Hv & Hi & _)]]];
      simpl in *; done.
Qed.

(** ** The aggregate debt of a client *)

(** X7.  Debts that are not negative stay so through any sequence of
    [create_sale], [pay_debt], [cancel_sale] and [process_debt_payment]
    requests, whatever the amounts they bring: a creation adds a positive
    unpaid part, and a client payment is refused when it exceeds the
    debt. *)
Theorem debt_never_negative d rs :
  map_Forall (fun _ c => debt_nonneg c) (clients d) ->
  map_Forall (fun _ c => debt_nonneg c) (clients (handle_all d rs)).
Proof.
  revert d. induction rs as [|r rs IH]; intros d Hd; [done|].
  rewrite handle_all_cons. apply IH.
  assert (Hgrow : forall (m : gmap Z Client.t) c unpaid,
            0 < unpaid ->
            map_Forall (fun _ c => debt_nonneg c) m ->
            map_Forall (fun (_ : Z) c => debt_nonneg c)
                       (alter (indebted unpaid) c m)).
  { intros m c unpaid Hpos Hm i x.
    destruct (decide (c = i)) as [->|Hne].
    - rewrite lookup_alter_eq. destruct (m !! i) as [y|] eqn:Hy; [|done].
      intros [= <-]. specialize (Hm i y Hy). unfold debt_nonneg in *. simpl. lia.
    - rewrite lookup_alter_ne by done. apply Hm. }
  destruct (handle_effect d r)
    as [(_ & _ & _ & _ & [->|(c & unpaid & Hpos & ->)])
       |[(env & sd & u & k & _ & _ & _ & _ & _ & [->|(c & unpaid & Hpos & ->)])
        |[(env & k & p & u & sale & _ & _ & _ & _ & _ & ->)
         |(env & pd & u & client & t & _ & Hc & Hle & _ & _ & _ & _ & _ & ->)]]];
    try done; try by apply Hgrow.
  apply map_Forall_insert_2; [|done]. unfold debt_nonneg. simpl. lia.
Qed.


(** ** The ledger against the paid amounts *)






(** ** The items of a created sale *)



(** ** The balance of the debt history *)

Lemma balance_after_perm ts1 ts2 :
  ts1 ≡ₚ ts2 -> balance_after ts1 = balance_after ts2.
Proof.
  unfold balance_after.
  induction 1 as [|t ts1 ts2 _ IH|t1 t2 ts|ts1 ts2 ts3 _ IH1 _ IH2]; simpl; lia.
Qed.

Lemma debt_history_not_found d client_id :
  clients d !! client_id = None ->
  serve (get_client_debt_history client_id) d
  = (inl (HTTPException 404 [Lit "Client not found"]), d).
Proof.
  intros H. unfold serve, get_client_debt_history. rewrite bind_run.
  unfold query_client. cbn [working]. by rewrite H.
Qed.

(** X11.  [get_client_debt_history] answers 404 for a client that does
    not exist.  For an existing client it changes nothing, gives one
    element for each ledger entry of the client, and the balance of its
    last element is the sum of the client's [sale] amounts less the sum
    of the client's [debt_payment] amounts, in whatever order the entries
    were stored or created. *)
Theorem debt_history_final_balance d client_id :
  (clients d !! client_id = None ->
   serve (get_client_debt_history client_id) d
   = (inl (HTTPException 404 [Lit "Client not found"]), d))
  /\ (forall client,
        clients d !! client_id = Some client ->
        exists h,
          serve (get_client_debt_history client_id) d = (inr h, d)
          /\ length h = length (transactions_of client_id d)
          /\ forall e, last h = Some e ->
               entry_balance e = balance_after (transactions_of client_id d)).
Proof.
  split; [apply debt_history_not_found|].
  intros client Hclient. rewrite (debt_history_found _ _ _ Hclient).
  set (ts := order_by_created_at_desc (transactions_of client_id d)).
  assert (Hperm : ts ≡ₚ transactions_of client_id d)
    by apply merge_sort_Permutation.
  destruct (replay_all ts) as (h & Hfold & Hlen & Hlook).
  exists h. rewrite Hfold. split; [done|].
  split; [by rewrite Hlen, Hperm|].
  intros e He. rewrite last_lookup in He.
  destruct (ts !! pred (length h)) as [t|] eqn:Ht.
  - rewrite (Hlook _ _ Ht) in He. injection He as <-. simpl.
    rewrite take_ge; [by apply balance_after_perm|].
    apply lookup_lt_Some in Ht. lia.
  - apply lookup_ge_None in Ht. apply lookup_lt_Some in He. lia.
Qed.

(** ** The sales that a client owes on *)

#[local] Instance sale_created_desc_total created_at :
  Total (sale_created_desc created_at).
Proof. intros a b. unfold sale_created_desc. lia. Qed.

#[local] Instance sale_created_desc_trans created_at :
  Transitive (sale_created_desc created_at).
Proof. intros a b c. unfold sale_created_desc. lia. Qed.

Lemma get_client_debts_run created_at client_id d :
  serve (get_client_debts created_at client_id) d
  = (inr (merge_sort (sale_created_desc created_at)
            (filter (fun r : SaleRow =>
                       Sale.client_id (snd r) = Some client_id /\ owing (snd r))
                    (map_to_list (sales d)))), d).
Proof. reflexivity. Qed.

Lemma client_debts_member created_at client_id d k s :
  (k, s) ∈ merge_sort (sale_created_desc created_at)
             (filter (fun r : SaleRow =>
                        Sale.client_id (snd r) = Some client_id /\ owing (snd r))
                     (map_to_list (sales d)))
  <-> sales d !! k = Some s /\ Sale.client_id s = Some client_id /\ owing s.
Proof.
  rewrite merge_sort_Permutation, list_elem_of_filter, elem_of_map_to_list.
  simpl. tauto.
Qed.

(** X12.  [get_client_debts] changes nothing and lists, each once and
    newest first, exactly the stored sales of the client whose status is
    [debt] or [partially_paid]. *)
Theorem client_debts_listing created_at client_id d :
  exists rows,
    serve (get_client_debts created_at client_id) d = (inr rows, d)
    /\ NoDup rows
    /\ StronglySorted (sale_created_desc created_at) rows
    /\ forall k s,
         (k, s) ∈ rows
         <-> sales d !! k = Some s
             /\ Sale.client_id s = Some client_id
             /\ (Sale.status s = DEBT \/ Sale.status s = PARTIALLY_PAID).
Proof.
  eexists. split; [apply get_client_debts_run|]. split; [|split].
  - rewrite merge_sort_Permutation. apply NoDup_filter, NoDup_map_to_list.
  - apply (StronglySorted_merge_sort _).
  - intros k s. apply client_debts_member.
Qed.

(** X13.  After a successful [pay_debt] on a sale of a client, the sale is
    among the client's debts exactly when the payment did not reach the
    total: a payment that completes the sale takes it off the list. *)
Theorem pay_debt_updates_client_debts created_at env d k payment_amount u sale
    client_id d' :
  sales d !! k = Some sale ->
  Sale.client_id sale = Some client_id ->
  serve (pay_debt env k payment_amount u) d = (inr k, d') ->
  exists rows,
    serve (get_client_debts created_at client_id) d' = (inr rows, d')
    /\ ((exists s, (k, s) ∈ rows)
        <-> Sale.paid_amount sale + payment_amount <> Sale.total_amount sale)
    /\ forall s, (k, s) ∈ rows -> s = paid_sale sale payment_amount.
Proof.
  intros Hsale Hclient Hserve. rewrite (pay_debt_found _ _ _ _ _ _ Hsale) in Hserve.
  destruct (decide (Sale.status sale = CANCELLED)); [done|].
  destruct (decide (Sale.status sale = COMPLETED)); [done|].
  destruct (_ <? _); [done|]. injection Hserve as <-.
  eexists. split; [apply get_client_debts_run|].
  assert (Hlook : sales (paid_db env d k sale payment_amount u) !! k
                  = Some (paid_sale sale payment_amount))
    by apply lookup_insert_eq.
  split.
  - split.
    + intros (s & Hs). apply client_debts_member in Hs as (Hs & _ & Howing).
      rewrite Hlook in Hs. injection Hs as <-. unfold owing, paid_sale in Howing.
      simpl in Howing.
      destruct (Z.eqb_spec (Sale.paid_amount sale + payment_amount)
                  (Sale.total_amount sale)); [|done].
      by destruct Howing.
    + intros Hne. exists (paid_sale sale payment_amount).
      apply client_debts_member. split; [done|]. split; [done|].
      right. unfold paid_sale. simpl.
      by destruct (Z.eqb_spec (Sale.paid_amount sale + payment_amount)
                     (Sale.total_amount sale)).
  - intros s Hs. apply client_debts_member in Hs as (Hs & _).
    rewrite Hlook in Hs. by injection Hs.
Qed.

(** X14.  After a successful [create_sale] for a client, the new sale is
    among the client's debts exactly when nothing was paid or the paid
    amount differs from the total; so a sale of total 0 with nothing paid
    is listed as a debt. *)
Theorem create_sale_listed_in_client_debts created_at env sd u d k d' client_id :
  serve (create_sale env sd u) d = (inr k, d') ->
  SaleCreate.client_id sd = Some client_id ->
  exists rows,
    serve (get_client_debts created_at client_id) d' = (inr rows, d')
    /\ ((k, new_sale env sd u) ∈ rows
        <-> SaleCreate.paid_amount sd = 0
            \/ SaleCreate.paid_amount sd <> request_total (SaleCreate.items sd)).
Proof.
  intros Hserve Hclient.
  apply create_sale_cases in Hserve
    as [(e & [=] & _)|(k' & [= <-] & _ & _ & _ & _ & Hs & _)].
  eexists. split; [apply get_client_debts_run|].
  rewrite client_debts_member, Hs, lookup_insert_eq.
  unfold owing, new_sale, sale_status_of. simpl.
  destruct (Z.eqb_spec (SaleCreate.paid_amount sd) 0).
  - split; [by left|]. intros _. split; [done|]. split; [done|]. by left.
  - destruct (Z.eqb_spec (SaleCreate.paid_amount sd)
                (request_total (SaleCreate.items sd))).
    + split; [|by intros [?|?]]. by intros (_ & _ & [?|?]).
    + split; [by right|]. intros _. split; [done|]. split; [done|]. by right.
Qed.

(** ** The sales summary *)

Lemma get_sales_summary_run created_at start_date end_date d :
  serve (get_sales_summary created_at start_date end_date) d
  = (inr (summarise (summary_query created_at start_date end_date d)), d).
Proof. reflexivity. Qed.

Lemma or_zero_sql_sum xs : or_zero (sql_sum xs) = fold_right Z.add 0 xs.
Proof.
  destruct xs as [|x xs]; [done|]. unfold sql_sum, or_zero.
  by destruct (Z.eqb_spec (fold_right Z.add 0 (x :: xs)) 0) as [->|].
Qed.

Lemma sum_perm (xs ys : list Z) :
  xs ≡ₚ ys -> fold_right Z.add 0 xs = fold_right Z.add 0 ys.
Proof.
  induction 1 as [|x xs ys _ IH|x y xs|xs ys zs _ IH1 _ IH2]; simpl; lia.
Qed.

Lemma method_group_perm q1 q2 m :
  q1 ≡ₚ q2 -> method_group q1 m = method_group q2 m.
Proof.
  intros Hperm. unfold method_group.
  assert (Hf : filter (fun r : SaleRow => Sale.payment_method (snd r) = m) q1
               ≡ₚ filter (fun r : SaleRow => Sale.payment_method (snd r) = m) q2)
    by by rewrite Hperm.
  destruct (filter _ q1) as [|r1 l1], (filter _ q2) as [|r2 l2]; [done| | |].
  - by apply Permutation_nil_cons in Hf.
  - symmetry in Hf. by apply Permutation_nil_cons in Hf.
  - f_equal. f_equal.
    + f_equal. by apply Permutation_length.
    + apply sum_perm. by rewrite Hf.
Qed.

Lemma summarise_perm q1 q2 : q1 ≡ₚ q2 -> summarise q1 = summarise q2.
Proof.
  intros Hperm. unfold summarise. f_equal.
  - f_equal. by apply Permutation_length.
  - rewrite !or_zero_sql_sum. apply sum_perm. by rewrite Hperm.
  - cbn [flat_map]. by rewrite !(method_group_perm q1 q2).
Qed.

Lemma summary_rows_perm created_at start_date end_date l1 l2 :
  l1 ≡ₚ l2 ->
  summary_rows created_at start_date end_date l1
  ≡ₚ summary_rows created_at start_date end_date l2.
Proof.
  intros Hperm. unfold summary_rows.
  destruct start_date, end_date; by rewrite Hperm.
Qed.

Lemma summary_rows_member created_at start_date end_date l r :
  r ∈ summary_rows created_at start_date end_date l
  <-> r ∈ l /\ Sale.status (snd r) = COMPLETED
      /\ within_dates (created_at (fst r)) start_date end_date.
Proof.
  unfold summary_rows, within_dates.
  destruct start_date, end_date; simpl; rewrite ?list_elem_of_filter; tauto.
Qed.

Lemma summary_rows_cons_out created_at start_date end_date l r :
  ~ (Sale.status (snd r) = COMPLETED
     /\ within_dates (created_at (fst r)) start_date end_date) ->
  summary_rows created_at start_date end_date (r :: l)
  = summary_rows created_at start_date end_date l.
Proof.
  unfold summary_rows, within_dates. intros Hout.
  destruct (decide (Sale.status (snd r) = COMPLETED)) as [Hc|Hc];
    [|by rewrite filter_cons_False by done].
  rewrite filter_cons_True by done.
  destruct start_date as [a|], end_date as [b|]; simpl in Hout.
  - destruct (decide (a <= created_at (fst r))) as [Ha|Ha];
      [|by rewrite filter_cons_False by done].
    rewrite filter_cons_True by done. rewrite filter_cons_False; [done|tauto].
  - rewrite filter_cons_False; [done|tauto].
  - rewrite filter_cons_False; [done|tauto].
  - tauto.
Qed.

Lemma summary_rows_cons_in created_at start_date end_date l r :
  Sale.status (snd r) = COMPLETED ->
  within_dates (created_at (fst r)) start_date end_date ->
  summary_rows created_at start_date end_date (r :: l)
  = r :: summary_rows created_at start_date end_date l.
Proof.
  unfold summary_rows, within_dates. intros Hc [Ha Hb].
  rewrite filter_cons_True by done.
  destruct start_date as [a|], end_date as [b|]; simpl in Ha, Hb;
    rewrite ?filter_cons_True by done; done.
Qed.

Lemma count_by_method (query : list SaleRow) :
  Z.of_nat (length query)
  = fold_right Z.add 0
      (map count (flat_map (method_group query) [CASH; CARD; TRANSFER])).
Proof.
  cbn [flat_map]. rewrite app_nil_r, !map_app.
  assert (Hg : forall m,
            fold_right Z.add 0 (map count (method_group query m))
            = Z.of_nat (length (filter (fun r : SaleRow =>
                                          Sale.payment_method (snd r) = m) query))).
  { intros m. unfold method_group. destruct (filter _ query); simpl; lia. }
  assert (Happ : forall xs ys : list Z,
            fold_right Z.add 0 (xs ++ ys)
            = fold_right Z.add 0 xs + fold_right Z.add 0 ys).
  { intros xs ys. induction xs; simpl; lia. }
  rewrite !Happ, !Hg. clear.
  induction query as [|r query IH]; [done|].
  rewrite !filter_cons. destruct (Sale.payment_method (snd r));
    repeat (destruct (decide _); try done); simpl length; lia.
Qed.

Lemma revenue_by_method (query : list SaleRow) :
  fold_right Z.add 0 (map (fun r : SaleRow => Sale.total_amount (snd r)) query)
  = fold_right Z.add 0
      (map total_of_method (flat_map (method_group query) [CASH; CARD; TRANSFER])).
Proof.
  cbn [flat_map]. rewrite app_nil_r, !map_app.
  assert (Hg : forall m,
            fold_right Z.add 0 (map total_of_method (method_group query m))
            = fold_right Z.add 0
                (map (fun r : SaleRow => Sale.total_amount (snd r))
                   (filter (fun r : SaleRow =>
                              Sale.payment_method (snd r) = m) query))).
  { intros m. unfold method_group. destruct (filter _ query); simpl; lia. }
  assert (Happ : forall xs ys : list Z,
            fold_right Z.add 0 (xs ++ ys)
            = fold_right Z.add 0 xs + fold_right Z.add 0 ys).
  { intros xs ys. induction xs; simpl; lia. }
  rewrite !Happ, !Hg. clear.
  induction query as [|r query IH]; [done|].
  rewrite !filter_cons. destruct (Sale.payment_method (snd r));
    repeat (destruct (decide _); try done); simpl; lia.
Qed.

(** X15.  [get_sales_summary] changes nothing and its figures agree:
    [total_sales] is the number of completed sales within the dates,
    [total_revenue] the sum of their total amounts (0 when there is
    none), and the groups by payment method, each of at least one sale,
    add up to both. *)
Theorem sales_summary_consistent created_at start_date end_date d :
  exists summary,
    serve (get_sales_summary created_at start_date end_date) d = (inr summary, d)
    /\ total_sales summary
       = Z.of_nat (length (summary_query created_at start_date end_date d))
    /\ total_revenue summary
       = fold_right Z.add 0
           (map (fun r : SaleRow => Sale.total_amount (snd r))
              (summary_query created_at start_date end_date d))
    /\ (forall k s,
          (k, s) ∈ summary_query created_at start_date end_date d
          <-> sales d !! k = Some s /\ Sale.status s = COMPLETED
              /\ within_dates (created_at k) start_date end_date)
    /\ total_sales summary
       = fold_right Z.add 0 (map count (payment_methods summary))
    /\ total_revenue summary
       = fold_right Z.add 0 (map total_of_method (payment_methods summary))
    /\ Forall (fun g => 1 <= count g) (payment_methods summary).
Proof.
  eexists. split; [apply get_sales_summary_run|]. unfold summarise. simpl.
  split; [done|]. split; [apply or_zero_sql_sum|]. split; [|split; [|split]].
  - intros k s. unfold summary_query.
    rewrite summary_rows_member, elem_of_map_to_list. done.
  - apply count_by_method.
  - rewrite or_zero_sql_sum. apply revenue_by_method.
  - rewrite app_nil_r. rewrite !Forall_app.
    assert (Hg : forall m,
              Forall (fun g => 1 <= count g)
                     (method_group
                        (summary_query created_at start_date end_date d) m)).
    { intros m. unfold method_group. destruct (filter _ _); [done|].
      constructor; [|done]. simpl. lia. }
    by repeat split.
Qed.

Lemma map_to_list_replace {A} (m : gmap Z A) k x y :
  m !! k = Some x ->
  exists rest,
    map_to_list m ≡ₚ (k, x) :: rest
    /\ map_to_list (<[k := y]> m) ≡ₚ (k, y) :: rest.
Proof.
  intros Hk. exists (map_to_list (delete k m)). split.
  - rewrite <- (insert_delete_id m k x Hk) at 1.
    apply map_to_list_insert, lookup_delete_eq.
  - rewrite <- insert_delete_eq.
    apply map_to_list_insert, lookup_delete_eq.
Qed.

(** X16.  A successful [pay_debt] that completes a sale created within
    the dates raises [total_sales] of the summary by one and
    [total_revenue] by the total amount of the sale, not by the payment;
    any other successful [pay_debt] leaves the summary as it was. *)
Theorem pay_debt_moves_sales_summary created_at start_date end_date env d k
    payment_amount u sale d' :
  sales d !! k = Some sale ->
  serve (pay_debt env k payment_amount u) d = (inr k, d') ->
  exists before after,
    serve (get_sales_summary created_at start_date end_date) d = (inr before, d)
    /\ serve (get_sales_summary created_at start_date end_date) d'
       = (inr after, d')
    /\ (Sale.paid_amount sale + payment_amount = Sale.total_amount sale ->
        within_dates (created_at k) start_date end_date ->
        total_sales after = total_sales before + 1
        /\ total_revenue after = total_revenue before + Sale.total_amount sale)
    /\ (Sale.paid_amount sale + payment_amount <> Sale.total_amount sale
        \/ ~ within_dates (created_at k) start_date end_date ->
        after = before).
Proof.
  intros Hsale Hserve. rewrite (pay_debt_found _ _ _ _ _ _ Hsale) in Hserve.
  destruct (decide (Sale.status sale = CANCELLED)); [done|].
  destruct (decide (Sale.status sale = COMPLETED)) as [|Hopen]; [done|].
  destruct (_ <? _); [done|]. injection Hserve as <-.
  eexists _, _. split; [apply get_sales_summary_run|].
  split; [apply get_sales_summary_run|].
  destruct (map_to_list_replace (sales d) k sale
              (paid_sale sale payment_amount) Hsale) as (rest & Hold & Hnew).
  assert (Hbefore :
            summary_query created_at start_date end_date d
            ≡ₚ summary_rows created_at start_date end_date rest).
  { unfold summary_query.
    rewrite (summary_rows_perm _ _ _ _ _ Hold).
    rewrite summary_rows_cons_out; [done|]. simpl. tauto. }
  assert (Hafter :
            summary_query created_at start_date end_date
              (paid_db env d k sale payment_amount u)
            ≡ₚ summary_rows created_at start_date end_date
                 ((k, paid_sale sale payment_amount) :: rest)).
  { unfold summary_query, paid_db. simpl. by apply summary_rows_perm. }
  rewrite (summarise_perm _ _ Hbefore), (summarise_perm _ _ Hafter).
  assert (Hstatus : Sale.status (paid_sale sale payment_amount) = COMPLETED
                    <-> Sale.paid_amount sale + payment_amount
                        = Sale.total_amount sale).
  { unfold paid_sale. simpl.
    by destruct (Z.eqb_spec (Sale.paid_amount sale + payment_amount)
                   (Sale.total_amount sale)). }
  split.
  - intros Hfull Hin. rewrite summary_rows_cons_in; [|by apply Hstatus|done].
    unfold summarise. cbn [total_sales total_revenue].
    rewrite !or_zero_sql_sum. cbn [length map fold_right snd].
    change (Sale.total_amount (paid_sale sale payment_amount))
      with (Sale.total_amount sale).
    split; lia.
  - intros Hout. rewrite summary_rows_cons_out; [done|]. simpl. tauto.
Qed.

(** ** The handler of the cancellation *)

Lemma cancel_endpoint_run env d sale_id :
  serve (cancel_sale_endpoint env sale_id) d
  = match serve (cancel_sale env sale_id) d with
    | (inr None, d') =>
      (inr {| success := false; message := Some [Lit "Sale not found"] |}, d')
    | (inr (Some _), d') =>
      (inr {| success := true;
              message := Some [Lit "Sale cancelled successfully"] |}, d')
    | (inl (HTTPException _ detail), d') =>
      (inr {| success := false; message := Some detail |}, d')
    | (inl e, d') => (inl e, d')
    end.
Proof.
  unfold serve, cancel_sale_endpoint.
  by destruct (cancel_sale env sale_id _) as [[[]|[]] s'].
Qed.

(** X17.  The handler of [PATCH /sales/{id}/cancel] never answers with
    [success] and never changes the store: for a sale that does not exist
    it answers "Sale not found", for a cancelled one "Sale is already
    cancelled", and for any other sale the [TypeError] of [cancel_sale]
    leaves the handler. *)
Theorem cancel_endpoint_never_succeeds env d sale_id :
  snd (serve (cancel_sale_endpoint env sale_id) d) = d
  /\ (forall response,
        fst (serve (cancel_sale_endpoint env sale_id) d) = inr response ->
        success response = false)
  /\ (sales d !! sale_id = None ->
      fst (serve (cancel_sale_endpoint env sale_id) d)
      = inr {| success := false; message := Some [Lit "Sale not found"] |})
  /\ (forall sale,
        sales d !! sale_id = Some sale ->
        (Sale.status sale = CANCELLED ->
         fst (serve (cancel_sale_endpoint env sale_id) d)
         = inr {| success := false;
                  message := Some [Lit "Sale is already cancelled"] |})
        /\ (Sale.status sale <> CANCELLED ->
            fst (serve (cancel_sale_endpoint env sale_id) d)
            = inl (TypeError "type" "Transaction"))).
Proof.
  rewrite cancel_endpoint_run.
  destruct (sales d !! sale_id) as [sale|] eqn:Hsale.
  - rewrite (cancel_sale_found _ _ _ _ Hsale).
    destruct (decide (Sale.status sale = CANCELLED)) as [Hc|Hc]; simpl.
    + split; [done|]. split; [by intros ? [= <-]|]. split; [done|].
      intros ? [= <-]. split; [done|]. done.
    + split; [done|]. split; [done|]. split; [done|].
      intros ? [= <-]. split; [done|]. done.
  - rewrite (cancel_sale_not_found _ _ _ Hsale). simpl.
    split; [done|]. split; [by intros ? [= <-]|]. split; [done|]. done.
Qed.

(** ** The debt set by hand and the clients with debt *)






(** * The scenarios of the further properties *)

(** The sale of the scenario keeps its terms through a day at the shop. *)
Lemma sale_terms_fixed_scenario :
  exists s',
    sales (handle_all shop_after_sale
             [Ledger (PayDebt later 1 50000 cashier);
              ClientPayment later payment_of_500 cashier;
              Ledger (PayDebt later 1 100000 cashier)]) !! 1 = Some s'
    /\ same_terms (new_sale today partly_paid_order cashier) s'.
Proof.
  apply (sale_terms_fixed shop_after_sale
           [Ledger (PayDebt later 1 50000 cashier);
            ClientPayment later payment_of_500 cashier;
            Ledger (PayDebt later 1 100000 cashier)] 1).
  vm_compute. reflexivity.
Defined.


Lemma debt_never_negative_scenario :
  map_Forall (fun _ c => debt_nonneg c) (clients (handle_all shop a_day)).
Proof.
  apply (debt_never_negative shop a_day).
  apply (bool_decide_unpack _). vm_compute. exact I.
Defined.


Lemma pay_debt_updates_client_debts_scenario :
  exists rows,
    serve (get_client_debts created_on 1) shop_after_payment
    = (inr rows, shop_after_payment)
    /\ ((exists s, (1, s) ∈ rows)
        <-> Sale.paid_amount (new_sale today partly_paid_order cashier) + 150000
            <> Sale.total_amount (new_sale today partly_paid_order cashier))
    /\ forall s, (1, s) ∈ rows
                 -> s = paid_sale (new_sale today partly_paid_order cashier) 150000.
Proof.
  apply (pay_debt_updates_client_debts created_on later shop_after_sale 1 150000
           cashier (new_sale today partly_paid_order cashier) 1
           shop_after_payment).
  - vm_compute. reflexivity.
  - reflexivity.
  - reflexivity.
Defined.

Lemma create_sale_listed_scenario :
  exists rows,
    serve (get_client_debts created_on 1) shop_after_sale
    = (inr rows, shop_after_sale)
    /\ ((1, new_sale today partly_paid_order cashier) ∈ rows
        <-> SaleCreate.paid_amount partly_paid_order = 0
            \/ SaleCreate.paid_amount partly_paid_order
               <> request_total (SaleCreate.items partly_paid_order)).
Proof.
  apply (create_sale_listed_in_client_debts created_on today partly_paid_order
           cashier shop 1 shop_after_sale 1); reflexivity.
Defined.

Lemma pay_debt_moves_sales_summary_scenario :
  exists before after,
    serve (get_sales_summary created_on None None) shop_after_sale
    = (inr before, shop_after_sale)
    /\ serve (get_sales_summary created_on None None) shop_after_payment
       = (inr after, shop_after_payment)
    /\ (Sale.paid_amount (new_sale today partly_paid_order cashier) + 150000
        = Sale.total_amount (new_sale today partly_paid_order cashier) ->
        within_dates (created_on 1) None None ->
        total_sales after = total_sales before + 1
        /\ total_revenue after
           = total_revenue before
             + Sale.total_amount (new_sale today partly_paid_order cashier))
    /\ (Sale.paid_amount (new_sale today partly_paid_order cashier) + 150000
        <> Sale.total_amount (new_sale today partly_paid_order cashier)
        \/ ~ within_dates (created_on 1) None None ->
        after = before).
Proof.
  apply (pay_debt_moves_sales_summary created_on None None later shop_after_sale
           1 150000 cashier (new_sale today partly_paid_order cashier)
           shop_after_payment).
  - vm_compute. reflexivity.
  - reflexivity.
Defined.




Lemma create_sale_distinct_variants_scenario :
  map_Forall (fun _ pv => 0 <= ProductVariant.stock_quantity pv)
             (product_variants shop_after_sale).
Proof.
  apply (create_sale_distinct_variants_stock today partly_paid_order cashier
           shop 1 shop_after_sale).
  - apply (bool_decide_unpack _). vm_compute. exact I.
  - reflexivity.
  - apply (bool_decide_unpack _). vm_compute. exact I.
Defined.
